(** * NER model comparison client: response parser, comparator, dispatcher

    A shallow embedding of [demo/model_comparison.py] (class
    [NERComparisonClient]) together with the parts of the Python runtime the
    class relies on: [str] methods, the regular expression of the fragment
    finder, [json.loads], sets of strings, binary64 arithmetic and string
    formatting of values. *)

From Stdlib Require Import ZArith NArith List String Ascii Bool Lia.
From Stdlib Require Import Floats.SpecFloat.
From stdpp Require Import base list gmap.
Import ListNotations.

Local Open Scope N_scope.

(** ** Python strings

    A Python [str] is a sequence of Unicode code points. *)

Module PyStr.

Definition char := N.
Definition str := list char.

(** Code points of a UTF-8 encoded byte sequence; used to write literals. *)
Fixpoint utf8_decode (bs : list N) : str :=
  match bs with
  | [] => []
  | b :: r =>
      if b <? 128 then b :: utf8_decode r
      else if b <? 224 then
        match r with
        | b1 :: r' => ((b - 192) * 64 + (b1 - 128)) :: utf8_decode r'
        | _ => []
        end
      else if b <? 240 then
        match r with
        | b1 :: b2 :: r' =>
            ((b - 224) * 4096 + (b1 - 128) * 64 + (b2 - 128)) :: utf8_decode r'
        | _ => []
        end
      else
        match r with
        | b1 :: b2 :: b3 :: r' =>
            ((b - 240) * 262144 + (b1 - 128) * 4096 + (b2 - 128) * 64 + (b3 - 128))
              :: utf8_decode r'
        | _ => []
        end
  end.

(** [u "..."] is the [str] written by the literal. *)
Definition u (s : string) : str :=
  utf8_decode (List.map N_of_ascii (list_ascii_of_string s)).

(** [j "..."] is [u "..."] with a double quote in place of every apostrophe:
    the way to write a text that holds double quotes, JSON above all. *)
Definition j (s : string) : str :=
  List.map (fun c => if c =? 39 then 34 else c) (u s).

Definition str_eqb (a b : str) : bool := bool_decide (a = b).

(** [str.isspace] on one character; also the class [\s] of [re] on [str]
    patterns. *)
Definition is_space (c : char) : bool :=
  ((9 <=? c) && (c <=? 13)) || ((28 <=? c) && (c <=? 32))
  || (c =? 133) || (c =? 160) || (c =? 5760)
  || ((8192 <=? c) && (c <=? 8202))
  || (c =? 8232) || (c =? 8233) || (c =? 8239) || (c =? 8287) || (c =? 12288).

Fixpoint lstrip (s : str) : str :=
  match s with
  | c :: r => if is_space c then lstrip r else s
  | [] => []
  end.

Definition rstrip (s : str) : str := rev (lstrip (rev s)).

(** [s.strip()] *)
Definition strip (s : str) : str := rstrip (lstrip s).

Fixpoint is_prefix (p s : str) : bool :=
  match p, s with
  | [], _ => true
  | _ :: _, [] => false
  | a :: p', b :: s' => (a =? b) && is_prefix p' s'
  end.

Fixpoint find_from (sub s : str) (i : Z) : Z :=
  if is_prefix sub s then i
  else match s with
       | [] => (-1)%Z
       | _ :: r => find_from sub r (i + 1)%Z
       end.

(** [s.find(sub)]: the lowest index where [sub] occurs, or [-1]. *)
Definition find (s sub : str) : Z := find_from sub s 0%Z.

(** [sub in s] *)
Definition contains (sub s : str) : bool := (0 <=? find s sub)%Z.

(** [s[i:]]; a negative [i] counts from the end. *)
Definition slice_from (s : str) (i : Z) : str :=
  if (i <? 0)%Z then drop (Z.to_nat (Z.max 0 (Z.of_nat (length s) + i))) s
  else drop (Z.to_nat i) s.

(** [s.split(sep)] for a one-character separator. *)
Fixpoint split (sep : char) (s : str) : list str :=
  match s with
  | [] => [[]]
  | c :: r =>
      if c =? sep then [] :: split sep r
      else match split sep r with
           | h :: t => (c :: h) :: t
           | [] => [[c]]
           end
  end.

(** [s.startswith(c)] and [s.endswith(c)] for a one-character argument. *)
Definition startswith (s : str) (c : char) : bool :=
  match s with
  | c' :: _ => c' =? c
  | [] => false
  end.

Definition endswith (s : str) (c : char) : bool :=
  match rev s with
  | c' :: _ => c' =? c
  | [] => false
  end.

Definition is_digit (c : char) : bool := (48 <=? c) && (c <=? 57).

Fixpoint digits_of_pos_fuel (fuel : nat) (n : N) (acc : str) : str :=
  match fuel with
  | O => acc
  | S f =>
      let acc' := (48 + n mod 10) :: acc in
      if n <? 10 then acc' else digits_of_pos_fuel f (n / 10) acc'
  end.

(** Decimal digits of a natural number, most significant first. *)
Definition digits_of_N (n : N) : str :=
  digits_of_pos_fuel (S (N.to_nat (N.log2 n))) n [].

(** [str(z)] for a Python [int]. *)
Definition str_of_Z (z : Z) : str :=
  match z with
  | Zneg p => 45 :: digits_of_N (Npos p)
  | _ => digits_of_N (Z.to_N z)
  end.

End PyStr.
Export PyStr.

(** ** Python floats

    A Python [float] is an IEEE 754 binary64 number; arithmetic rounds to
    nearest, ties to even.  The operations are those of [SpecFloat] at
    precision 53 and maximal exponent 1024. *)

Module Float64.

Local Open Scope Z_scope.

Definition prec : Z := 53.
Definition emax : Z := 1024.

Definition float := spec_float.

Definition fzero : float := S754_zero false.
Definition fone : float := S754_finite false 4503599627370496 (-52).

(** The float nearest to [num / den], for [0 <= num] and [0 < den], with
    sign [s]. *)
Definition round_ratio (s : bool) (num den : Z) : float :=
  match num with
  | Zpos _ =>
      let '(q, e, l) := SFdiv_core_binary prec emax num 0 den 0 in
      binary_round_aux prec emax s q e l
  | _ => S754_zero s
  end.

(** [float(z)] *)
Definition of_Z (z : Z) : float := round_ratio (z <? 0) (Z.abs z) 1.

(** The float nearest to [(-1)^s * m * 10^e], as [float("...")] reads a
    decimal literal.  Above [10^310] every value rounds to infinity and
    below [10^-330] to zero, so those are answered without the power. *)
Definition of_decimal (s : bool) (m e : Z) : float :=
  if m <=? 0 then S754_zero s
  else if 310 <? e then S754_infinity s
  else if Z.of_nat (length (digits_of_N (Z.to_N m))) + e <? -330 then S754_zero s
  else
    match e with
    | Zneg p => round_ratio s m (10 ^ Zpos p)
    | _ => round_ratio s (m * 10 ^ e) 1
    end.

Definition fadd : float -> float -> float := SFadd prec emax.
Definition fsub : float -> float -> float := SFsub prec emax.
Definition fmul : float -> float -> float := SFmul prec emax.
Definition fdiv : float -> float -> float := SFdiv prec emax.
Definition fltb : float -> float -> bool := SFltb.
Definition feqb : float -> float -> bool := SFeqb.

(** The same float, bit for bit (unlike [feqb], which equates the two
    zeros and no NaN with itself). *)
Definition same (x y : float) : bool :=
  match x, y with
  | S754_zero a, S754_zero b => Bool.eqb a b
  | S754_infinity a, S754_infinity b => Bool.eqb a b
  | S754_nan, S754_nan => true
  | S754_finite a m e, S754_finite b n f => Bool.eqb a b && (m =? n)%positive && (e =? f)
  | _, _ => false
  end.

(** *** [repr] of a float: the shortest decimal string that reads back as
    the same float *)

(** [10^k <= num / den], for any sign of [k]. *)
Definition pow10_le (k num den : Z) : bool :=
  match k with
  | Zneg p => den <=? num * 10 ^ Zpos p
  | _ => 10 ^ k * den <=? num
  end.

(** The [k] with [10^k <= num / den < 10^(k+1)], found next to an estimate
    taken from the binary size. *)
Definition floor_log10 (num den : Z) : Z :=
  let est := ((Z.log2 num - Z.log2 den) * 30103) / 100000 in
  let fix search (n : nat) (k : Z) : Z :=
    match n with
    | O => k
    | S n' => if pow10_le k num den then k else search n' (k - 1)
    end in
  search 4%nat (est + 2).

(** [floor (num / (den * 10^k))] *)
Definition scaled_floor (num den k : Z) : Z :=
  match k with
  | Zneg p => (num * 10 ^ Zpos p) / den
  | _ => num / (den * 10 ^ k)
  end.

(** Sign of [2 * num / den - (a + b) * 10^k]: which of [a * 10^k] and
    [b * 10^k] is nearer to [num / den]. *)
Definition nearer (num den a b k : Z) : comparison :=
  match k with
  | Zneg p => (2 * num * 10 ^ Zpos p ?= (a + b) * den)
  | _ => (2 * num ?= (a + b) * den * 10 ^ k)
  end.

(** The decimal [(d, k)], meaning [d * 10^k], with [p] significant digits
    that reads back as [x = m * 2^e], if there is one. *)
Definition candidate (m : positive) (e : Z) (p : Z) : option (Z * Z) :=
  let x := S754_finite false m e in
  let num := match e with Zneg _ => Zpos m | _ => Zpos m * 2 ^ e end in
  let den := match e with Zneg q => 2 ^ Zpos q | _ => 1 end in
  let k := floor_log10 num den - (p - 1) in
  let lo := scaled_floor num den k in
  let hi := lo + 1 in
  let oklo := same (of_decimal false lo k) x in
  let okhi := same (of_decimal false hi k) x in
  match oklo, okhi with
  | true, true =>
      match nearer num den lo hi k with
      | Lt => Some (lo, k)
      | Gt => Some (hi, k)
      | Eq => if Z.even lo then Some (lo, k) else Some (hi, k)
      end
  | true, false => Some (lo, k)
  | false, true => Some (hi, k)
  | false, false => None
  end.

Fixpoint shortest (m : positive) (e : Z) (ps : list Z) : Z * Z :=
  match ps with
  | [] => (0, 0)
  | p :: ps' =>
      match candidate m e p with
      | Some dk => dk
      | None => shortest m e ps'
      end
  end.

Fixpoint strip_zeros_rev (ds : str) : str :=
  match ds with
  | 48%N :: r => strip_zeros_rev r
  | _ => ds
  end.

Definition zeros (n : Z) : str := replicate (Z.to_nat n) 48%N.

(** The digits and the position of the decimal point, laid out as
    [float_repr] does: plain notation when [-4 < decpt <= 16], exponent
    notation with at least two exponent digits otherwise. *)
Definition layout (digits : str) (decpt : Z) : str :=
  let n := Z.of_nat (length digits) in
  if (decpt <=? -4) || (16 <? decpt) then
    let ex := decpt - 1 in
    let mant := match digits with
                | d :: [] => [d]
                | d :: r => d :: 46%N :: r
                | [] => []
                end in
    let exd := digits_of_N (Z.to_N (Z.abs ex)) in
    let exd := if (Z.abs ex <? 10) then 48%N :: exd else exd in
    mant ++ [101%N; if ex <? 0 then 45%N else 43%N] ++ exd
  else if decpt <=? 0 then
    [48%N; 46%N] ++ zeros (- decpt) ++ digits
  else if n <=? decpt then
    digits ++ zeros (decpt - n) ++ [46%N; 48%N]
  else
    take (Z.to_nat decpt) digits ++ [46%N] ++ drop (Z.to_nat decpt) digits.

(** [repr(x)], which is also [str(x)] and what an f-string prints. *)
Definition repr (x : float) : str :=
  match x with
  | S754_nan => u "nan"
  | S754_infinity s => if s then u "-inf" else u "inf"
  | S754_zero s => if s then u "-0.0" else u "0.0"
  | S754_finite s m e =>
      let '(d, k) := shortest m e (List.map Z.of_nat (seq 1 17)) in
      let all := digits_of_N (Z.to_N d) in
      let digits := rev (strip_zeros_rev (rev all)) in
      let body := layout digits (Z.of_nat (length all) + k) in
      if s then 45%N :: body else body
  end.

End Float64.

(** ** Python values, exceptions and results *)

(** The values [json.loads] builds: [None], [bool], [int], [float], [str],
    [list] and [dict] (insertion ordered, keyed by [str]). *)
#[local] Unset Elimination Schemes.
Inductive value :=
| VNone
| VBool (b : bool)
| VInt (z : Z)
| VFloat (f : Float64.float)
| VStr (s : str)
| VList (l : list value)
| VDict (d : list (str * value)).
#[local] Set Elimination Schemes.

(** A [dict] with [str] keys, as an association list in insertion order. *)
Definition dict := list (str * value).

(** The exceptions that occur; all of them derive from [Exception].
    [RequestException] stands for whatever [requests] raises (connection
    errors, timeouts, [HTTPError], a body that is not JSON), with its text. *)
Inductive exn :=
| JSONDecodeError
| AttributeError
| TypeError
| KeyError (k : value)
| IndexError
| ZeroDivisionError
| OverflowError
| ValueError
| RecursionError
| RequestException (msg : str).

Inductive result (A : Type) :=
| Ret (a : A)
| Raise (e : exn).
Arguments Ret {A} a.
Arguments Raise {A} e.

(** Sequencing: the first exception ends the computation. *)
Definition bind {A B} (r : result A) (k : A -> result B) : result B :=
  match r with
  | Ret a => k a
  | Raise e => Raise e
  end.

Notation "'let*' x ':=' r 'in' k" := (bind r (fun x => k))
  (at level 10, x name, r at level 100, k at level 200).

(** [for x in l: f x], stopping at the first exception. *)
Fixpoint mapM {A B} (f : A -> result B) (l : list A) : result (list B) :=
  match l with
  | [] => Ret []
  | a :: l' => let* b := f a in let* bs := mapM f l' in Ret (b :: bs)
  end.

Module PyDict.

(** [d.get(k)], [None] when the key is missing. *)
Fixpoint lookup (d : dict) (k : str) : option value :=
  match d with
  | [] => None
  | (k', v) :: d' => if str_eqb k' k then Some v else lookup d' k
  end.

(** [d[k] = v]: an existing key keeps its place, a new one goes last. *)
Fixpoint set (d : dict) (k : str) (v : value) : dict :=
  match d with
  | [] => [(k, v)]
  | (k', v') :: d' => if str_eqb k' k then (k', v) :: d' else (k', v') :: set d' k v
  end.

(** [dict(pairs)] *)
Definition of_pairs (pairs : list (str * value)) : dict :=
  fold_left (fun d kv => set d (fst kv) (snd kv)) pairs [].

End PyDict.

(** [k in x] for a [str] key [k]: a key of a dict, an element of a list, a
    substring of a string; other values are not containers. *)
Definition py_in (k : str) (x : value) : result bool :=
  match x with
  | VDict d => Ret (match PyDict.lookup d k with Some _ => true | None => false end)
  | VList l => Ret (existsb (fun v => match v with VStr s => str_eqb s k | _ => false end) l)
  | VStr s => Ret (contains k s)
  | _ => Raise TypeError
  end.

(** [x[k]] for a [str] key [k]. *)
Definition py_getitem_str (x : value) (k : str) : result value :=
  match x with
  | VDict d => match PyDict.lookup d k with
               | Some v => Ret v
               | None => Raise (KeyError (VStr k))
               end
  | _ => Raise TypeError
  end.

(** [x[0]] *)
Definition py_getitem_0 (x : value) : result value :=
  match x with
  | VList (v :: _) => Ret v
  | VList [] => Raise IndexError
  | VStr (c :: _) => Ret (VStr [c])
  | VStr [] => Raise IndexError
  | VDict _ => Raise (KeyError (VInt 0))
  | _ => Raise TypeError
  end.

(** [x.get(k, '')]: only a dict has the method. *)
Definition py_get (x : value) (k : str) : result value :=
  match x with
  | VDict d => Ret (match PyDict.lookup d k with Some v => v | None => VStr [] end)
  | _ => Raise AttributeError
  end.

(** Truth value of [x], as [if x] and [not x] test it. *)
Definition truthy (x : value) : bool :=
  match x with
  | VNone => false
  | VBool b => b
  | VInt z => negb (z =? 0)%Z
  | VFloat f => negb (Float64.feqb f Float64.fzero)
  | VStr s => match s with [] => false | _ => true end
  | VList l => match l with [] => false | _ => true end
  | VDict d => match d with [] => false | _ => true end
  end.

(** ** Formatting values: [repr] and [str] *)

Section Formatting.

(** [str.isprintable] on one character, a table of the Unicode database
    the interpreter ships; [repr] escapes what it rejects. *)
Variable isprintable : char -> bool.

Definition hex_digit (n : N) : char := if n <? 10 then 48 + n else 87 + n.

Fixpoint hex_fixed (width : nat) (n : N) : str :=
  match width with
  | O => []
  | S w => hex_fixed w (n / 16) ++ [hex_digit (n mod 16)]
  end.

(** One character inside [repr] of a string quoted with [q]. *)
Definition repr_char (q : char) (c : char) : str :=
  if (c =? q) || (c =? 92) then [92; c]
  else if c =? 9 then [92; 116]
  else if c =? 10 then [92; 110]
  else if c =? 13 then [92; 114]
  else if (c <? 32) || (c =? 127) then [92; 120] ++ hex_fixed 2 c
  else if c <? 127 then [c]
  else if isprintable c then [c]
  else if c <? 256 then [92; 120] ++ hex_fixed 2 c
  else if c <? 65536 then [92; 117] ++ hex_fixed 4 c
  else [92; 85] ++ hex_fixed 8 c.

(** [repr(s)]: double quotes only when [s] has a single quote and no
    double quote. *)
Definition repr_str (s : str) : str :=
  let q := if existsb (N.eqb 39) s && negb (existsb (N.eqb 34) s) then 34 else 39 in
  [q] ++ concat (List.map (repr_char q) s) ++ [q].

Fixpoint join (sep : str) (parts : list str) : str :=
  match parts with
  | [] => []
  | [p] => p
  | p :: ps => p ++ sep ++ join sep ps
  end.

(** [repr(v)] *)
Fixpoint py_repr (v : value) : str :=
  match v with
  | VNone => u "None"
  | VBool b => if b then u "True" else u "False"
  | VInt z => str_of_Z z
  | VFloat f => Float64.repr f
  | VStr s => repr_str s
  | VList l => [91] ++ join (u ", ") (List.map py_repr l) ++ [93]
  | VDict d =>
      [123] ++ join (u ", ")
                 (List.map (fun kv => repr_str (fst kv) ++ u ": " ++ py_repr (snd kv)) d)
        ++ [125]
  end.

(** [str(v)], which is what [f"{v}"] prints. *)
Definition py_str (v : value) : str :=
  match v with
  | VStr s => s
  | _ => py_repr v
  end.

End Formatting.

(** The table of [str.isprintable] cut down to ASCII, under which [repr]
    escapes every other character as [ascii] does. *)
Definition isprintable_ascii (c : char) : bool := (32 <=? c) && (c <? 127).

(** ** [json.loads]

    The decoder of the standard library on a [str]: a scanner that reads one
    token at a position and returns it with the position after it, and the
    grammar of arrays and objects over those tokens.  The text is read once,
    from left to right, and the first failure ends the call.  There are three:
    [JSONDecodeError] where the text is not JSON; [ValueError] where a value
    is an integer of more than 4300 digits, which [int] refuses to convert;
    [RecursionError] where a bracket opens one array or object more than the
    recursion limit allows, or where the text is not JSON so close to that
    limit that the error cannot be built.  [JSONDecodeError] is a subclass of
    [ValueError], not the other way round: a handler for the former lets the
    latter pass.  Memory is not part of the model. *)

Module Json.

(** [TBigInt] is an integer literal too long for [int].  [TBadString] stands
    at a quote that opens no string (it does not end, or holds a control
    character or a wrong escape), [TBad] at any other place where no token
    starts; either ends the list of tokens. *)
Inductive token :=
| TLBrace | TRBrace | TLBrack | TRBrack | TComma | TColon
| TAtom (v : value)
| TBigInt
| TBadString
| TBad.

(** The digit limit of [int], [sys.get_int_max_str_digits()]. *)
Definition max_str_digits : nat := 4300.

(** How many arrays and objects can be open at once.  The scanner enters one
    level of recursion for each, under the recursion limit of the
    interpreter, 1000, which the program leaves as it is; the frames already
    on the stack when the scanner starts count against the limit, and the
    depth stays below it.  The parser has one caller,
    [extract_entities_single], and that one runs in a worker of the thread
    pool only, so ten frames are in use when the scanner starts: five of the
    thread and the pool, [extract_entities_single], the parser, [json.loads],
    [decode] and [raw_decode]. *)
Definition recursion_limit : nat := 1000.
Definition frames_in_use : nat := 10.
Definition max_nesting : nat := recursion_limit - 1 - frames_in_use.

(** The exception for a text that is not JSON at a place other than the
    start of a value (a delimiter or a key is missing, a string does not
    end), met with [d] arrays and objects open.  The scanner raises it on
    the spot, which runs the constructor of [JSONDecodeError]: Python code
    that takes three levels of recursion.  Where fewer are left,
    [RecursionError] comes in its place.  (A missing value is reported to the
    caller of the scanner, which raises [JSONDecodeError] at its own
    level.) *)
Definition delimiter_error (d : nat) : exn :=
  if Nat.leb (d + 3) max_nesting then JSONDecodeError else RecursionError.

Definition is_ws (c : char) : bool :=
  (c =? 32) || (c =? 9) || (c =? 10) || (c =? 13).

Definition hex_val (c : char) : option N :=
  if (48 <=? c) && (c <=? 57) then Some (c - 48)
  else if (97 <=? c) && (c <=? 102) then Some (c - 87)
  else if (65 <=? c) && (c <=? 70) then Some (c - 55)
  else None.

(** The code unit written by the four hex digits of a [\uXXXX] escape. *)
Definition hex4 (a b c d : char) : option N :=
  match hex_val a, hex_val b, hex_val c, hex_val d with
  | Some x, Some y, Some z, Some w => Some (((x * 16 + y) * 16 + z) * 16 + w)
  | _, _, _, _ => None
  end.

Definition is_high_surrogate (c : N) : bool := (55296 <=? c) && (c <=? 56319).
Definition is_low_surrogate (c : N) : bool := (56320 <=? c) && (c <=? 57343).
Definition join_surrogates (hi lo : N) : N :=
  65536 + (hi - 55296) * 1024 + (lo - 56320).

(** The character a one-letter escape stands for. *)
Definition unescape (c : char) : option char :=
  if (c =? 34) || (c =? 92) || (c =? 47) then Some c
  else if c =? 98 then Some 8
  else if c =? 102 then Some 12
  else if c =? 110 then Some 10
  else if c =? 114 then Some 13
  else if c =? 116 then Some 9
  else None.

(** [scanstring]: the text after an opening quote, up to the closing one;
    [n] counts the characters read so far.  Strict mode: a raw control
    character ends the scan with an error. *)
Fixpoint scanstring (s : str) (acc : str) (n : nat) : option (str * nat) :=
  match s with
  | [] => None
  | c :: r =>
      if c =? 34 then Some (rev acc, S n)
      else if c =? 92 then
        match r with
        | [] => None
        | e :: r1 =>
            if e =? 117 then
              match r1 with
              | h1 :: h2 :: h3 :: h4 :: r2 =>
                  match hex4 h1 h2 h3 h4 with
                  | None => None
                  | Some cu =>
                      match r2 with
                      | b :: l :: g1 :: g2 :: g3 :: g4 :: r3 =>
                          if is_high_surrogate cu && (b =? 92) && (l =? 117) then
                            match hex4 g1 g2 g3 g4 with
                            | None => None
                            | Some cu2 =>
                                if is_low_surrogate cu2
                                then scanstring r3 (join_surrogates cu cu2 :: acc) (12 + n)
                                else scanstring r2 (cu :: acc) (6 + n)
                            end
                          else scanstring r2 (cu :: acc) (6 + n)
                      | _ => scanstring r2 (cu :: acc) (6 + n)
                      end
                  end
              | _ => None
              end
            else
              match unescape e with
              | Some c' => scanstring r1 (c' :: acc) (2 + n)
              | None => None
              end
        end
      else if c <? 32 then None
      else scanstring r (c :: acc) (S n)
  end.

(** The leading run of ASCII digits and what follows it. *)
Fixpoint span_digits (s : str) : str * str :=
  match s with
  | c :: r =>
      if is_digit c then let '(ds, rest) := span_digits r in (c :: ds, rest)
      else ([], s)
  | [] => ([], [])
  end.

(** The number written by a run of digits. *)
Definition digits_value (ds : str) : Z :=
  fold_left (fun acc c => (acc * 10 + Z.of_N (c - 48))%Z) ds 0%Z.

(** The integer part of a number: [0], or a digit from 1 to 9 followed by
    digits. *)
Definition int_part (s : str) : option (str * str) :=
  match s with
  | c :: r =>
      if c =? 48 then Some ([c], r)
      else if is_digit c then let '(ds, rest) := span_digits r in Some (c :: ds, rest)
      else None
  | [] => None
  end.

(** A fraction: a dot and at least one digit. *)
Definition frac_part (s : str) : option (str * str) :=
  match s with
  | 46 :: r =>
      match span_digits r with
      | ([], _) => None
      | (ds, rest) => Some (ds, rest)
      end
  | _ => None
  end.

(** An exponent: [e] or [E], a sign or none, at least one digit; the
    result is its value and how many characters write it. *)
Definition exp_part (s : str) : option (Z * nat * str) :=
  match s with
  | c :: r =>
      if (c =? 101) || (c =? 69) then
        let '(neg, signed, r') :=
          match r with
          | 45 :: r' => (true, 1%nat, r')
          | 43 :: r' => (false, 1%nat, r')
          | _ => (false, 0%nat, r)
          end in
        match span_digits r' with
        | ([], _) => None
        | (ds, rest) =>
            let v := digits_value ds in
            Some (if neg then (- v)%Z else v, (1 + signed + length ds)%nat, rest)
        end
      else None
  | [] => None
  end.

(** A number at the start of [s]: an [int] when it has neither fraction nor
    exponent, unless it has too many digits, else the [float] its text
    denotes. *)
Definition match_number (s : str) : option (token * nat) :=
  let '(neg, sgn, s1) :=
    match s with
    | 45 :: r => (true, 1%nat, r)
    | _ => (false, 0%nat, s)
    end in
  match int_part s1 with
  | None => None
  | Some (ids, s2) =>
      let '(fds, flen, s3) :=
        match frac_part s2 with
        | Some (fds, s3) => (Some fds, S (length fds), s3)
        | None => (None, 0%nat, s2)
        end in
      let '(ex, elen) :=
        match exp_part s3 with
        | Some (e, n, _) => (Some e, n)
        | None => (None, 0%nat)
        end in
      let n := (sgn + length ids + flen + elen)%nat in
      match fds, ex with
      | None, None =>
          if Nat.ltb max_str_digits (length ids) then Some (TBigInt, n)
          else
            let v := digits_value ids in
            Some (TAtom (VInt (if neg then (- v)%Z else v)), n)
      | _, _ =>
          let fd := default [] fds in
          let m := digits_value (ids ++ fd) in
          let e := (default 0%Z ex - Z.of_nat (length fd))%Z in
          Some (TAtom (VFloat (Float64.of_decimal neg m e)), n)
      end
  end.

(** [scan_once] for everything but arrays and objects, whose brackets it
    hands over as tokens: the token at the start of [s] and its length, 0
    for a quote that opens no string. *)
Definition scan_token (s : str) : option (token * nat) :=
  match s with
  | [] => None
  | c :: r =>
      if c =? 34 then
        match scanstring r [] 1 with
        | Some (x, n) => Some (TAtom (VStr x), n)
        | None => Some (TBadString, 0%nat)
        end
      else if c =? 123 then Some (TLBrace, 1%nat)
      else if c =? 125 then Some (TRBrace, 1%nat)
      else if c =? 91 then Some (TLBrack, 1%nat)
      else if c =? 93 then Some (TRBrack, 1%nat)
      else if c =? 44 then Some (TComma, 1%nat)
      else if c =? 58 then Some (TColon, 1%nat)
      else if is_prefix (u "null") s then Some (TAtom VNone, 4%nat)
      else if is_prefix (u "true") s then Some (TAtom (VBool true), 4%nat)
      else if is_prefix (u "false") s then Some (TAtom (VBool false), 5%nat)
      else if is_prefix (u "NaN") s then Some (TAtom (VFloat S754_nan), 3%nat)
      else if is_prefix (u "Infinity") s
        then Some (TAtom (VFloat (S754_infinity false)), 8%nat)
      else if is_prefix (u "-Infinity") s
        then Some (TAtom (VFloat (S754_infinity true)), 9%nat)
      else match_number s
  end.

(** The tokens of [s] in the order of the text, white space between them
    dropped, up to the first place where no token starts; [skip] characters
    belong to the token just read. *)
Fixpoint lex (skip : nat) (s : str) : list token :=
  match s with
  | [] => []
  | c :: r =>
      match skip with
      | S k => lex k r
      | O =>
          if is_ws c then lex 0 r
          else
            match scan_token s with
            | Some (t, S k) => t :: lex k r
            | Some (t, O) => [t]
            | None => [TBad]
            end
      end
  end.

(** An array or object under construction. *)
Inductive frame :=
| FArr (done : list value)
| FObj (done : list (str * value)) (key : str).

Inductive pstate :=
| SValue (stk : list frame)
| SArrOpen (stk : list frame)
| SObjOpen (stk : list frame)
| SKey (done : list (str * value)) (stk : list frame)
| SColon (done : list (str * value)) (key : str) (stk : list frame)
| SDone (v : value) (stk : list frame).

(** A value starts with token [t], [stk] holding the arrays and objects
    that are open.  An integer is converted as soon as it is read; a bracket
    opens an array or object if the recursion limit has room for it. *)
Definition start_value (stk : list frame) (t : token) : result pstate :=
  match t with
  | TAtom v => Ret (SDone v stk)
  | TBigInt => Raise ValueError
  | TLBrack =>
      if Nat.ltb (length stk) max_nesting then Ret (SArrOpen stk)
      else Raise RecursionError
  | TLBrace =>
      if Nat.ltb (length stk) max_nesting then Ret (SObjOpen stk)
      else Raise RecursionError
  | TBadString => Raise (delimiter_error (length stk))
  | _ => Raise JSONDecodeError
  end.

Definition step (st : pstate) (t : token) : result pstate :=
  match st with
  | SValue stk => start_value stk t
  | SArrOpen stk =>
      match t with
      | TRBrack => Ret (SDone (VList []) stk)
      | _ => start_value (FArr [] :: stk) t
      end
  | SObjOpen stk =>
      match t with
      | TRBrace => Ret (SDone (VDict []) stk)
      | TAtom (VStr k) => Ret (SColon [] k stk)
      | _ => Raise (delimiter_error (S (length stk)))
      end
  | SKey done stk =>
      match t with
      | TAtom (VStr k) => Ret (SColon done k stk)
      | _ => Raise (delimiter_error (S (length stk)))
      end
  | SColon done k stk =>
      match t with
      | TColon => Ret (SValue (FObj done k :: stk))
      | _ => Raise (delimiter_error (S (length stk)))
      end
  | SDone v stk =>
      match stk, t with
      | FArr done :: stk', TComma => Ret (SValue (FArr (v :: done) :: stk'))
      | FArr done :: stk', TRBrack => Ret (SDone (VList (rev (v :: done))) stk')
      | FObj done k :: stk', TComma => Ret (SKey (done ++ [(k, v)]) stk')
      | FObj done k :: stk', TRBrace =>
          Ret (SDone (VDict (PyDict.of_pairs (done ++ [(k, v)]))) stk')
      | _, _ => Raise (delimiter_error (length stk))
      end
  end.

(** The tokens one after the other; the first failure ends the run. *)
Fixpoint run (st : pstate) (ts : list token) : result pstate :=
  match ts with
  | [] => Ret st
  | t :: ts' =>
      match step st t with
      | Ret st' => run st' ts'
      | Raise e => Raise e
      end
  end.

(** The end of the text: the value, if one is complete and nothing is
    open. *)
Definition at_end (st : pstate) : result value :=
  match st with
  | SDone v [] => Ret v
  | SDone _ stk => Raise (delimiter_error (length stk))
  | SValue _ | SArrOpen _ => Raise JSONDecodeError
  | SObjOpen stk | SKey _ stk | SColon _ _ stk =>
      Raise (delimiter_error (S (length stk)))
  end.

(** [json.loads(s)] *)
Definition loads (s : str) : result value :=
  match run (SValue []) (lex 0 s) with
  | Ret st => at_end st
  | Raise e => Raise e
  end.

End Json.

(** ** The fragment finder

    [re.findall(json_pattern, text, re.DOTALL)], where the pattern reads: an
    opening brace, white space, the quoted word entities, white space, a
    colon, white space, an opening bracket, group 1 (any run of characters
    other than a closing bracket), a closing bracket, white space, a closing
    brace.  The result is group 1 of every non-overlapping match, leftmost
    first.  Each step of the pattern has one way to match, so a match at a
    position is a function of the text there. *)

Module Re.

(** White space, as much as there is: the text after it, and how much
    was dropped. *)
Fixpoint skip_space (s : str) : nat * str :=
  match s with
  | c :: r => if is_space c then let '(n, rest) := skip_space r in (S n, rest) else (O, s)
  | [] => (O, [])
  end.

(** A literal text at the start of [s]. *)
Fixpoint literal (lit s : str) : option str :=
  match lit, s with
  | [], _ => Some s
  | a :: lit', b :: s' => if a =? b then literal lit' s' else None
  | _ :: _, [] => None
  end.

(** Group 1 and the closing bracket: the text before the first closing
    bracket, and the text after that bracket. *)
Fixpoint until_bracket (s : str) : option (str * str) :=
  match s with
  | [] => None
  | c :: r =>
      if c =? 93 then Some ([], r)
      else match until_bracket r with
           | Some (g, rest) => Some (c :: g, rest)
           | None => None
           end
  end.

(** A match of the whole pattern at the start of [s]: group 1 and the
    offset of the last character of the match, its closing brace.  The scan
    resumes there; no match starts on a closing brace, so the matches found
    are those of a scan that resumes right after the match. *)
Definition match_at (s : str) : option (str * nat) :=
  s1 ← literal [123] s;
  let '(n1, s2) := skip_space s1 in
  s3 ← literal (j "'entities'") s2;
  let '(n2, s4) := skip_space s3 in
  s5 ← literal [58] s4;
  let '(n3, s6) := skip_space s5 in
  s7 ← literal [91] s6;
  '(g, s8) ← until_bracket s7;
  let '(n4, s9) := skip_space s8 in
  _ ← literal [125] s9;
  Some (g, (14 + n1 + n2 + n3 + n4 + length g)%nat).

Fixpoint findall_from (skip : nat) (s : str) : list str :=
  match s with
  | [] => []
  | _ :: r =>
      match skip with
      | S k => findall_from k r
      | O =>
          match match_at s with
          | Some (g, n) => g :: findall_from (pred n) r
          | None => findall_from 0 r
          end
      end
  end.

Definition findall (s : str) : list str := findall_from 0 s.

End Re.

(** ** The client: [NERComparisonClient] *)

(** [ModelResult]: the result of one model inference.  [entities] is
    whatever the response parser returned and [raw_response] whatever the
    endpoint sent as content, so both are values. *)
Record ModelResult := {
  model_name : str;
  entities : value;
  inference_time : Float64.float;
  success : bool;
  error_message : str;
  raw_response : value
}.

(** What [requests.post] gives back: the status, the text of the
    [HTTPError] that [raise_for_status] raises for that status, and what
    [response.json()] returns or raises. *)
Record response := {
  status_code : Z;
  http_error : str;
  json_body : result value
}.

(** The network as seen by one call: the URL and the JSON payload decide
    whether [requests.post] raises or returns a response. *)
Definition network := str -> value -> result response.

(** [response.raise_for_status()] *)
Definition raise_for_status (r : response) : result unit :=
  if (400 <=? status_code r)%Z && (status_code r <? 600)%Z
  then Raise (RequestException (http_error r))
  else Ret tt.

Record NERComparisonClient := {
  base_api_url : str;
  lora_api_url : str
}.

(** [NERComparisonClient(base_api_url, lora_api_url)] *)
Definition new_client (base lora : str) : NERComparisonClient :=
  {| base_api_url := base ++ u "/v1/chat/completions";
     lora_api_url := lora ++ u "/v1/chat/completions" |}.

Definition default_client : NERComparisonClient :=
  new_client (u "http://localhost:8001") (u "http://localhost:8002").

(** [a / b] on two [int]s: the nearest float to the quotient. *)
Definition int_truediv (a b : Z) : result Float64.float :=
  if (b =? 0)%Z then Raise ZeroDivisionError
  else
    match Float64.round_ratio (xorb (a <? 0)%Z (b <? 0)%Z) (Z.abs a) (Z.abs b) with
    | S754_infinity _ => Raise OverflowError
    | q => Ret q
    end.

(** [a / b] on two [float]s. *)
Definition float_truediv (a b : Float64.float) : result Float64.float :=
  if Float64.feqb b Float64.fzero then Raise ZeroDivisionError
  else Ret (Float64.fdiv a b).

(** [json.JSONDecodeError] caught, anything else passed on. *)
Definition except_json {A} (r : result A) (handler : result A) : result A :=
  match r with
  | Raise JSONDecodeError => handler
  | _ => r
  end.

Section Client.

(** [str.isprintable], which [repr] consults. *)
Variable isprintable : char -> bool.

(** [str(e)] for an exception [e]. *)
Variable exn_str : exn -> str.

(** [format_ner_prompt] *)
Definition format_ner_prompt (text : str) : str :=
  j "你是一个文本实体抽取领域的专家，你需要从给定的句子中提取出实体并且以 json 格式输出, 如 {'entities': [{'name':'外层抗击区临界线','type':'军事装备'}]}

注意:
1. 输出的每一行都必须是正确的 json 字符串
2. 找不到任何实体时, 输出'没有找到任何实体和关系'
3. 如果地理实体有坐标需要输出地理实体的坐标，例如兰州(36.06,103.79)，没有坐标则输出地理实体
4. 实体类型必须从以下四种实体类型进行选择：军事装备，地理位置，组织名称，人名

输入文本：
" ++ text ++ u "

请直接输出JSON结果：".

(** The key of an entity: [f"{name}|{type_}"] with
    [name] and [type_] read with [entity.get], the empty string standing
    for a missing field. *)
Definition entity_key (entity : value) : result str :=
  let* name := py_get entity (u "name") in
  let* type_ := py_get entity (u "type") in
  Ret (py_str isprintable name ++ u "|" ++ py_str isprintable type_).

(** *** [_extract_entities_from_response] *)

(** The text left once the reasoning section is removed. *)
Definition clean_text (response_text : str) : str :=
  if contains (u "<think>") response_text then
    let think_end := find response_text (u "</think>") in
    if (0 <=? think_end)%Z then slice_from response_text (think_end + 8)
    else response_text
  else response_text.

(** The body of the loop over the matches: what one match adds to
    [entities]. *)
Definition match_entities (match_ : str) : result (list value) :=
  except_json (A := list value)
    (let json_str := j "{'entities': [" ++ match_ ++ u "]}" in
     let* data := Json.loads json_str in
     let* has := py_in (u "entities") data in
     if has then
       let* v := py_getitem_str data (u "entities") in
       match v with
       | VList l => Ret l
       | _ => Ret []
       end
     else Ret [])
    (Ret []).

(** The loop over the matches: [entities] when it ends, and the exception
    that ended it, if one did. *)
Fixpoint collect (matches : list str) (entities : list value)
  : list value * option exn :=
  match matches with
  | [] => (entities, None)
  | m :: ms =>
      match match_entities m with
      | Ret l => collect ms (entities ++ l)
      | Raise e => (entities, Some e)
      end
  end.

(** One line of the fallback: the value to return, if the line has one. *)
Definition line_entities (line : str) : result (option value) :=
  let line := strip line in
  if startswith line 123 && endswith line 125 then
    except_json (A := option value)
      (let* data := Json.loads line in
       let* has := py_in (u "entities") data in
       if has then let* v := py_getitem_str data (u "entities") in Ret (Some v)
       else Ret None)
      (Ret None)
  else Ret None.

(** The loop over the lines: the value of the first line that has one. *)
Fixpoint scan_lines (lines : list str) : result (option value) :=
  match lines with
  | [] => Ret None
  | line :: rest =>
      let* found := line_entities line in
      match found with
      | Some v => Ret (Some v)
      | None => scan_lines rest
      end
  end.

(** The loop that keeps the first entity of every key. *)
Fixpoint unique (ents : list value) (seen : gset str) (unique_entities : list value)
  : result (list value) :=
  match ents with
  | [] => Ret unique_entities
  | entity :: rest =>
      let* key := entity_key entity in
      if decide (key ∈ seen) then unique rest seen unique_entities
      else unique rest ({[key]} ∪ seen) (unique_entities ++ [entity])
  end.

(** The [try] block, given [entities] as the first loop left it. *)
Definition extract_body (text : str) (ents : list value) (err : option exn)
  : result value :=
  match err with
  | Some e => Raise e
  | None =>
      let* found := (if negb (truthy (VList ents))
                     then scan_lines (split 10 (strip text))
                     else Ret None) in
      match found with
      | Some v => Ret v
      | None => let* unique_entities := unique ents ∅ [] in Ret (VList unique_entities)
      end
  end.

(** Everything after the reasoning section is removed: the [try] block
    on the cleaned text, and the handler that returns [entities]. *)
Definition extract_from_text (text : str) : result value :=
  let '(ents, err) := collect (Re.findall text) [] in
  match extract_body text ents err with
  | Ret v => Ret v
  | Raise _ => Ret (VList ents)
  end.

Definition _extract_entities_from_response (response_text : str) : result value :=
  extract_from_text (clean_text response_text).

(** The same call on whatever the endpoint sent as content.  On a value
    that is not a [str] the first string operation raises inside the
    [try] while [entities] is still empty. *)
Definition extract_entities_from_content (content : value) : result value :=
  match content with
  | VStr s => _extract_entities_from_response s
  | _ => Ret (VList [])
  end.

(** *** [extract_entities_single] and [extract_entities_both] *)

Definition payload (model : str) (prompt : str) : value :=
  VDict [
    (u "model", VStr model);
    (u "messages", VList [VDict [(u "role", VStr (u "user")); (u "content", VStr prompt)]]);
    (u "temperature", VFloat (Float64.of_decimal false 7 (-1)));
    (u "top_p", VFloat (Float64.of_decimal false 8 (-1)));
    (u "top_k", VInt 20);
    (u "min_p", VFloat (Float64.of_decimal false 0 (-1)));
    (u "max_tokens", VInt 6144);
    (u "presence_penalty", VFloat (Float64.of_decimal false 15 (-1)));
    (u "stop", VList [VStr (u "

输入文本："); VStr (u "
输入文本："); VStr (u "输入文本：")])
  ].

(** The part of the [try] block before the parser: the content of the
    first choice. *)
Definition fetch_content (net : network) (api_url : str) (body : value)
  : result value :=
  let* resp := net api_url body in
  let* _ := raise_for_status resp in
  let* res := json_body resp in
  let* choices := py_getitem_str res (u "choices") in
  let* first := py_getitem_0 choices in
  let* message := py_getitem_str first (u "message") in
  py_getitem_str message (u "content").

(** [extract_entities_single]; [clock] holds the two readings of
    [time.time()], before the request and after it. *)
Definition extract_entities_single (net : network) (clock : Float64.float * Float64.float)
    (text api_url model : str) : result ModelResult :=
  let prompt := format_ner_prompt text in
  let start_time := fst clock in
  let elapsed := Float64.fsub (snd clock) start_time in
  match
    let* response_text := fetch_content net api_url (payload model prompt) in
    let* ents := extract_entities_from_content response_text in
    Ret {| model_name := model; entities := ents; inference_time := elapsed;
           success := true; error_message := []; raw_response := response_text |}
  with
  | Ret r => Ret r
  | Raise e =>
      Ret {| model_name := model; entities := VList []; inference_time := elapsed;
             success := false; error_message := exn_str e; raw_response := VStr [] |}
  end.

(** [extract_entities_both]: the two calls run in two workers, each with
    its own clock readings, and the caller waits for both results. *)
Definition extract_entities_both (self : NERComparisonClient) (net : network)
    (base_clock lora_clock : Float64.float * Float64.float) (text : str)
  : result (ModelResult * ModelResult) :=
  let* base_result :=
    extract_entities_single net base_clock text (base_api_url self) (u "qwen3-base") in
  let* lora_result :=
    extract_entities_single net lora_clock text (lora_api_url self) (u "qwen3-ner-zero3") in
  Ret (base_result, lora_result).

(** *** [compare_entities] and [calculate_metrics] *)

(** [{entity_key(e) for e in entities}] *)
Definition key_set (ents : list value) : result (gset str) :=
  let* keys := mapM entity_key ents in
  Ret (list_to_set keys).

Definition len {A} (l : list A) : Z := Z.of_nat (length l).
Definition set_len (s : gset str) : Z := Z.of_nat (size s).

Definition compare_entities (base_entities lora_entities : list value) : result value :=
  let* base_set := key_set base_entities in
  let* lora_set := key_set lora_entities in
  let common := base_set ∩ lora_set in
  let base_only := base_set ∖ lora_set in
  let lora_only := lora_set ∖ base_set in
  Ret (VDict [
    (u "base_total", VInt (len base_entities));
    (u "lora_total", VInt (len lora_entities));
    (u "common", VInt (set_len common));
    (u "base_only", VInt (set_len base_only));
    (u "lora_only", VInt (set_len lora_only));
    (u "improvement", VInt (len lora_entities - len base_entities))
  ]).

(** [n / d if d > 0 else 0.0] *)
Definition ratio_or_zero (n d : Z) : result Float64.float :=
  if (0 <? d)%Z then int_truediv n d else Ret Float64.fzero.

(** [2 * precision * recall / (precision + recall)
     if (precision + recall) > 0 else 0.0] *)
Definition f1_score (precision recall : Float64.float) : result Float64.float :=
  let sum := Float64.fadd precision recall in
  if Float64.fltb Float64.fzero sum then
    float_truediv (Float64.fmul (Float64.fmul (Float64.of_Z 2) precision) recall) sum
  else Ret Float64.fzero.

Definition calculate_metrics (ground_truth : option (list value))
    (predictions : list value) : result value :=
  if negb (match ground_truth with Some l => truthy (VList l) | None => false end) then
    Ret (VDict [
      (u "precision", VFloat Float64.fzero);
      (u "recall", VFloat Float64.fzero);
      (u "f1", VFloat Float64.fzero)
    ])
  else
    let* gt_set := key_set (default [] ground_truth) in
    let* pred_set := key_set predictions in
    let true_positives := set_len (gt_set ∩ pred_set) in
    let false_positives := set_len (pred_set ∖ gt_set) in
    let false_negatives := set_len (gt_set ∖ pred_set) in
    let* precision := ratio_or_zero true_positives (true_positives + false_positives) in
    let* recall := ratio_or_zero true_positives (true_positives + false_negatives) in
    let* f1 := f1_score precision recall in
    Ret (VDict [
      (u "precision", VFloat precision);
      (u "recall", VFloat recall);
      (u "f1", VFloat f1);
      (u "true_positives", VInt true_positives);
      (u "false_positives", VInt false_positives);
      (u "false_negatives", VInt false_negatives)
    ]).

End Client.

(** ** The radar chart: [count_by_type]

    The counting function of [create_comparison_radar_chart] in
    [demo/visualization.py]; the chart drawn from its two results is not
    part of the model. *)

(** [entity_types] *)
Definition entity_types : list str :=
  [u "军事装备"; u "地理位置"; u "组织名称"; u "人名"].

(** [{t: 0 for t in entity_types}] *)
Definition zero_counts : gmap str Z :=
  list_to_map ((fun t => (t, 0%Z)) <$> entity_types).

(** The body of the loop.  [etype in counts] hashes [etype] first, which a
    [list] or a [dict] refuses with [TypeError]; a value that is not a
    [str] equals no key of [counts]. *)
Definition count_entity (counts : gmap str Z) (entity : value) : result (gmap str Z) :=
  let* etype := py_get entity (u "type") in
  match etype with
  | VStr s =>
      match counts !! s with
      | Some n => Ret (<[s := (n + 1)%Z]> counts)
      | None => Ret counts
      end
  | VList _ | VDict _ => Raise TypeError
  | _ => Ret counts
  end.

Fixpoint count_loop (entities : list value) (counts : gmap str Z)
  : result (gmap str Z) :=
  match entities with
  | [] => Ret counts
  | entity :: rest =>
      let* counts' := count_entity counts entity in
      count_loop rest counts'
  end.

(** [count_by_type]: one count for each of the four types, in their order. *)
Definition count_by_type (entities : list value) : result (list Z) :=
  let* counts := count_loop entities zero_counts in
  mapM (fun t => match counts !! t with
                 | Some n => Ret n
                 | None => Raise (KeyError (VStr t))
                 end) entity_types.

(** * Properties *)

(** ** Keys and key sets *)

(** The text of one field of an entity, empty when the field is missing. *)
Definition field_text (pr : char -> bool) (d : dict) (k : str) : str :=
  match PyDict.lookup d k with
  | Some v => py_str pr v
  | None => []
  end.

(** The key of an entity record: name, a bar, type. *)
Definition key_of (pr : char -> bool) (d : dict) : str :=
  field_text pr d (u "name") ++ u "|" ++ field_text pr d (u "type").

(** The number of distinct keys of a list of entity records. *)
Definition distinct_keys (pr : char -> bool) (l : list dict) : Z :=
  Z.of_nat (length (remove_dups (key_of pr <$> l))).

Lemma entity_key_dict pr (d : dict) : entity_key pr (VDict d) = Ret (key_of pr d).
Proof.
  unfold entity_key, key_of, field_text, py_get, bind.
  destruct (PyDict.lookup d (u "name")), (PyDict.lookup d (u "type")); reflexivity.
Qed.

Lemma mapM_entity_key pr (l : list dict) :
  mapM (entity_key pr) (VDict <$> l) = Ret (key_of pr <$> l).
Proof.
  induction l as [|d l IH]; [reflexivity|].
  rewrite fmap_cons. cbn [mapM]. rewrite entity_key_dict, IH. reflexivity.
Qed.

Lemma key_set_dicts pr (l : list dict) :
  key_set pr (VDict <$> l) = Ret (list_to_set (key_of pr <$> l)).
Proof. unfold key_set. rewrite mapM_entity_key. reflexivity. Qed.

Lemma size_key_set pr (l : list dict) :
  Z.of_nat (size (list_to_set (key_of pr <$> l) : gset str)) = distinct_keys pr l.
Proof.
  unfold distinct_keys. f_equal.
  rewrite <- (size_list_to_set (C := gset str) (remove_dups (key_of pr <$> l)))
    by apply NoDup_remove_dups.
  f_equal. apply set_eq. intros k.
  rewrite !elem_of_list_to_set, elem_of_remove_dups. reflexivity.
Qed.

Lemma size_split (X Y : gset str) : (size (X ∩ Y) + size (X ∖ Y) = size X)%nat.
Proof.
  rewrite <- size_union.
  - f_equal. apply set_eq. intros k.
    rewrite elem_of_union, elem_of_intersection, elem_of_difference.
    split.
    + intros [[HX _]|[HX _]]; exact HX.
    + intros HX. destruct (decide (k ∈ Y)); [left | right]; split; assumption.
  - apply elem_of_disjoint. intros k [_ HY]%elem_of_intersection [_ HnY]%elem_of_difference.
    exact (HnY HY).
Qed.

(** ** Facts on binary64 arithmetic *)

Section FloatFacts.

Local Open Scope Z_scope.
Import Float64.

Lemma Zdigits2_log2 (m : Z) : 0 < m -> Zdigits2 m = Z.log2 m + 1.
Proof.
  destruct m as [|p|p]; try lia. intros _. cbn [Zdigits2].
  assert (E : digits2_pos p = Pos.size p)
    by (induction p as [p IH|p IH|]; cbn; congruence).
  rewrite E. destruct p; cbn [Z.log2 Pos.size]; lia.
Qed.

Lemma Zdigits2_nonneg (m : Z) : 0 <= Zdigits2 m.
Proof. destruct m; cbn; lia. Qed.

Lemma Zdigits2_mono (a b : Z) : 0 <= a <= b -> Zdigits2 a <= Zdigits2 b.
Proof.
  intros [Ha Hab]. destruct (Z.eq_dec a 0) as [->|Hne].
  - apply Zdigits2_nonneg.
  - rewrite !Zdigits2_log2 by lia. pose proof (Z.log2_le_mono a b Hab). lia.
Qed.

Lemma Zdigits2_succ (m : Z) : 0 <= m -> Zdigits2 (m + 1) <= Zdigits2 m + 1.
Proof.
  intros Hm. destruct (Z.eq_dec m 0) as [->|Hne]; [vm_compute; discriminate|].
  rewrite !Zdigits2_log2 by lia. pose proof (Z.log2_succ_le m) as H.
  unfold Z.succ in H. lia.
Qed.

Lemma Zdigits2_pow2 (m k : Z) : 0 <= k -> 0 <= m <= 2 ^ k -> Zdigits2 m <= k + 1.
Proof.
  intros Hk Hm. etransitivity; [apply (Zdigits2_mono m (2 ^ k)); lia|].
  rewrite Zdigits2_log2 by (apply Z.pow_pos_nonneg; lia).
  rewrite Z.log2_pow2 by lia. lia.
Qed.

Lemma shr_1_bounds (r : shr_record) :
  0 <= shr_m r -> 0 <= shr_m (shr_1 r) <= shr_m r.
Proof.
  destruct r as [m b s]. cbn [shr_m]. intros Hm.
  destruct m as [|p|p]; [cbn; lia| |lia].
  destruct p; cbn; lia.
Qed.

Lemma iter_shr_1_bounds (p : positive) (r : shr_record) :
  0 <= shr_m r -> 0 <= shr_m (SpecFloat.iter_pos shr_1 p r) <= shr_m r.
Proof.
  revert r. induction p as [p IH|p IH|]; intros r Hr; cbn [SpecFloat.iter_pos].
  - pose proof (shr_1_bounds r Hr) as H1.
    pose proof (IH (shr_1 r) ltac:(lia)) as H2.
    pose proof (IH (SpecFloat.iter_pos shr_1 p (shr_1 r)) ltac:(lia)). lia.
  - pose proof (IH r Hr) as H1.
    pose proof (IH (SpecFloat.iter_pos shr_1 p r) ltac:(lia)). lia.
  - apply shr_1_bounds, Hr.
Qed.

Lemma shr_m_of_loc (m : Z) (l : location) : shr_m (shr_record_of_loc m l) = m.
Proof. destruct l as [|[]]; reflexivity. Qed.

(** One shift to the working exponent: the mantissa does not grow, and the
    exponent becomes the larger of [e] and [fexp]. *)
Lemma shr_fexp_bounds (m e : Z) (l : location) :
  0 <= m ->
  0 <= shr_m (fst (shr_fexp prec emax m e l)) <= m
  /\ snd (shr_fexp prec emax m e l) = Z.max e (fexp prec emax (Zdigits2 m + e)).
Proof.
  intros Hm. unfold shr_fexp, shr.
  destruct (fexp prec emax (Zdigits2 m + e) - e) as [|p|p] eqn:E; cbn [fst snd].
  - rewrite shr_m_of_loc. lia.
  - pose proof (iter_shr_1_bounds p (shr_record_of_loc m l)) as H.
    rewrite shr_m_of_loc in H. specialize (H Hm). lia.
  - rewrite shr_m_of_loc. lia.
Qed.

Lemma round_nearest_even_bounds (m : Z) (l : location) :
  m <= round_nearest_even m l <= m + 1.
Proof. destruct l as [|[]]; cbn; try lia. destruct (Z.even m); lia. Qed.

(** A float that is zero or positive and finite. *)
Definition nonneg_finite (x : float) : Prop :=
  match x with
  | S754_zero false | S754_finite false _ _ => True
  | _ => False
  end.

(** A float that is zero or positive, infinity included. *)
Definition nonneg (x : float) : Prop :=
  match x with
  | S754_zero false | S754_finite false _ _ | S754_infinity false => True
  | _ => False
  end.

Lemma nonneg_finite_nonneg x : nonneg_finite x -> nonneg x.
Proof. destruct x as [[]|[]| |[] ? ?]; cbn; tauto. Qed.

(** Rounding a mantissa that is not negative never gives a NaN. *)
Lemma binary_round_aux_nonneg (m e : Z) (l : location) :
  0 <= m -> nonneg (binary_round_aux prec emax false m e l).
Proof.
  intros Hm. unfold binary_round_aux.
  pose proof (shr_fexp_bounds m e l Hm) as [H1 _].
  destruct (shr_fexp prec emax m e l) as [r1 e1]. cbn [fst snd] in H1.
  pose proof (round_nearest_even_bounds (shr_m r1) (loc_of_shr_record r1)) as H2.
  set (m2 := round_nearest_even (shr_m r1) (loc_of_shr_record r1)) in *.
  pose proof (shr_fexp_bounds m2 e1 loc_Exact ltac:(lia)) as [H3 _].
  destruct (shr_fexp prec emax m2 e1 loc_Exact) as [r2 e2]. cbn [fst snd] in H3.
  destruct (shr_m r2) as [|p|p]; [exact I| |lia].
  destruct (e2 <=? emax - prec); exact I.
Qed.

(** Rounding a value below 2 stays finite. *)
Lemma binary_round_aux_finite (m e : Z) (l : location) :
  0 <= m -> -1074 <= e <= 0 -> Zdigits2 m + e <= 1 ->
  nonneg_finite (binary_round_aux prec emax false m e l).
Proof.
  intros Hm He Hd. unfold binary_round_aux.
  pose proof (shr_fexp_bounds m e l Hm) as [H1 E1].
  destruct (shr_fexp prec emax m e l) as [r1 e1]. cbn [fst snd] in H1, E1.
  pose proof (round_nearest_even_bounds (shr_m r1) (loc_of_shr_record r1)) as H2.
  set (m2 := round_nearest_even (shr_m r1) (loc_of_shr_record r1)) in *.
  pose proof (shr_fexp_bounds m2 e1 loc_Exact ltac:(lia)) as [H3 E2].
  destruct (shr_fexp prec emax m2 e1 loc_Exact) as [r2 e2]. cbn [fst snd] in H3, E2.
  destruct (shr_m r2) as [|p|p]; [exact I| |lia].
  assert (Hm2 : Zdigits2 m2 <= Zdigits2 m + 1).
  { etransitivity; [apply (Zdigits2_mono m2 (m + 1)); lia|].
    apply Zdigits2_succ, Hm. }
  assert (Hle : e2 <= emax - prec).
  { subst e2 e1. unfold fexp, emin, emax, prec in *. lia. }
  apply Z.leb_le in Hle. rewrite Hle. exact I.
Qed.

Lemma div_eucl_pair (a b : Z) : Z.div_eucl a b = (a / b, a mod b).
Proof. unfold Z.div, Z.modulo. destruct (Z.div_eucl a b); reflexivity. Qed.

(** The quotient of two counts, the first not above the second, is a
    finite float that is not negative. *)
Lemma round_ratio_le (n d : Z) :
  0 <= n <= d -> 0 < d -> nonneg_finite (round_ratio false n d).
Proof.
  intros Hn Hd. unfold round_ratio.
  destruct n as [|p|p]; [exact I| |lia].
  unfold SFdiv_core_binary.
  set (e' := Z.min (fexp prec emax (Zdigits2 (Z.pos p) + 0 - (Zdigits2 d + 0))) (0 - 0)).
  assert (He : -1074 <= e' <= -53).
  { pose proof (Zdigits2_mono (Z.pos p) d ltac:(lia)).
    subst e'. unfold fexp, emin, emax, prec. lia. }
  replace (0 - 0 - e') with (- e') by lia.
  destruct (- e') as [|s|s] eqn:Es; try lia.
  rewrite div_eucl_pair.
  apply binary_round_aux_finite.
  - apply Z.div_pos; [|lia]. rewrite Z.shiftl_mul_pow2 by lia.
    apply Z.mul_nonneg_nonneg; [lia|]. apply Z.pow_nonneg. lia.
  - lia.
  - assert (Hq : Z.shiftl (Z.pos p) (Z.pos s) / d <= 2 ^ Z.pos s).
    { rewrite Z.shiftl_mul_pow2 by lia.
      apply Z.div_le_upper_bound; [lia|].
      apply Z.mul_le_mono_nonneg_r; [apply Z.pow_nonneg; lia | lia]. }
    assert (Hq0 : 0 <= Z.shiftl (Z.pos p) (Z.pos s) / d).
    { apply Z.div_pos; [|lia]. rewrite Z.shiftl_mul_pow2 by lia.
      apply Z.mul_nonneg_nonneg; [lia|]. apply Z.pow_nonneg. lia. }
    pose proof (Zdigits2_pow2 _ (Z.pos s) ltac:(lia) (conj Hq0 Hq)). lia.
Qed.

(** A count divided by itself is [1.0]. *)
Lemma round_ratio_same (n : Z) : 0 < n -> round_ratio false n n = fone.
Proof.
  intros Hn. unfold round_ratio. destruct n as [|p|p]; try lia.
  unfold SFdiv_core_binary.
  replace (Zdigits2 (Z.pos p) + 0 - (Zdigits2 (Z.pos p) + 0)) with 0 by lia.
  change (Z.min (fexp prec emax 0) (0 - 0)) with (-53).
  change (0 - 0 - -53) with 53.
  rewrite div_eucl_pair, Z.shiftl_mul_pow2 by lia.
  rewrite (Z.mul_comm (Z.pos p)), Z.div_mul, Z.mod_mul by lia.
  replace (new_location (Z.pos p) 0) with loc_Exact
    by (unfold new_location; destruct (Z.even (Z.pos p)); reflexivity).
  vm_compute. reflexivity.
Qed.

(** The sum of two floats that are not negative is not negative (and not
    a NaN). *)
Lemma fadd_nonneg (x y : float) :
  nonneg_finite x -> nonneg_finite y -> nonneg (fadd x y).
Proof.
  destruct x as [[]|[]| |[] mx ex], y as [[]|[]| |[] my ey]; cbn; try tauto.
  intros _ _. unfold binary_normalize.
  destruct (Z.pos (fst (shl_align mx ex (Z.min ex ey)))
            + Z.pos (fst (shl_align my ey (Z.min ex ey)))) as [|s|s] eqn:E; try lia.
  unfold binary_round.
  destruct (shl_align s (Z.min ex ey) _) as [mz ez].
  apply binary_round_aux_nonneg. lia.
Qed.

(** On floats that are not negative, "not above zero" is "equal to zero". *)
Lemma nonneg_gt_zero (x : float) :
  nonneg x -> fltb fzero x = negb (feqb x fzero).
Proof. destruct x as [[]|[]| |[] ? ?]; cbn; tauto. Qed.

End FloatFacts.

(** ** The comparator *)

Lemma compare_entities_dicts pr (L1 L2 : list dict) :
  let B : gset str := list_to_set (key_of pr <$> L1) in
  let L : gset str := list_to_set (key_of pr <$> L2) in
  compare_entities pr (VDict <$> L1) (VDict <$> L2) =
    Ret (VDict [
      (u "base_total", VInt (len L1));
      (u "lora_total", VInt (len L2));
      (u "common", VInt (set_len (B ∩ L)));
      (u "base_only", VInt (set_len (B ∖ L)));
      (u "lora_only", VInt (set_len (L ∖ B)));
      (u "improvement", VInt (len L2 - len L1))]).
Proof.
  intros B L. unfold compare_entities. rewrite !key_set_dicts. cbn [bind].
  unfold len. rewrite !length_fmap. reflexivity.
Qed.


(** A record with a name and a type, both strings. *)
Definition entity (name type_ : string) : dict :=
  [(u "name", VStr (u name)); (u "type", VStr (u type_))].

(** C7. For every two lists of entity records, the [improvement] that
    [compare_entities] returns is the length of the second list minus the
    length of the first, duplicates counted; it is not the difference of
    the numbers of distinct keys, as a list that repeats a record shows. *)
Theorem compare_entities_improvement (pr : char -> bool) (L1 L2 : list dict) :
  (exists d,
      compare_entities pr (VDict <$> L1) (VDict <$> L2) = Ret (VDict d)
      /\ PyDict.lookup d (u "improvement")
         = Some (VInt (Z.of_nat (length L2) - Z.of_nat (length L1))))
  /\ (let D1 := [entity "a" "b"] in
      let D2 := [entity "a" "b"; entity "a" "b"] in
      exists d,
        compare_entities pr (VDict <$> D1) (VDict <$> D2) = Ret (VDict d)
        /\ PyDict.lookup d (u "improvement") = Some (VInt 1)
        /\ (distinct_keys pr D2 - distinct_keys pr D1 = 0)%Z).
Proof.
  split.
  - eexists. split; [apply compare_entities_dicts|]. reflexivity.
  - intros D1 D2. eexists. split; [apply compare_entities_dicts|].
    split; vm_compute; reflexivity.
Qed.

(** ** The scores *)

(** What [calculate_metrics] returns when there is no ground truth. *)
Definition zero_metrics : value :=
  VDict [
    (u "precision", VFloat Float64.fzero);
    (u "recall", VFloat Float64.fzero);
    (u "f1", VFloat Float64.fzero)].

(** C2, as stated, fails: with the ground truth absent the result holds
    three fields only; the counts of true positives, false positives and
    false negatives are not in it. *)
Lemma calculate_metrics_counts_absent :
  exists d,
    calculate_metrics isprintable_ascii None [] = Ret (VDict d)
    /\ PyDict.lookup d (u "precision") = Some (VFloat Float64.fzero)
    /\ PyDict.lookup d (u "true_positives") = None
    /\ PyDict.lookup d (u "false_positives") = None
    /\ PyDict.lookup d (u "false_negatives") = None.
Proof. eexists. repeat split; reflexivity. Qed.

(** C2, amended. For every list of predictions, of any content,
    [calculate_metrics] with the ground truth absent or empty returns
    exactly the three fields precision, recall and f1, each [0.0]; the key
    sets are not computed, so predictions on which that computation raises
    are answered all the same. *)
Theorem calculate_metrics_no_ground_truth (pr : char -> bool) (predictions : list value) :
  calculate_metrics pr None predictions = Ret zero_metrics
  /\ calculate_metrics pr (Some []) predictions = Ret zero_metrics
  /\ key_set pr [VNone] = Raise AttributeError
  /\ calculate_metrics pr None [VNone] = Ret zero_metrics.
Proof. repeat split; reflexivity. Qed.

(** The keys of a list of entity records. *)
Definition keys (pr : char -> bool) (l : list dict) : list str := key_of pr <$> l.

(** The distinct keys of [G] that are keys of [P]. *)
Definition true_positive_count (pr : char -> bool) (G P : list dict) : Z :=
  Z.of_nat (length (filter (fun k => k ∈ keys pr P) (remove_dups (keys pr G)))).

(** The distinct keys of [P] that are not keys of [G]. *)
Definition false_positive_count (pr : char -> bool) (G P : list dict) : Z :=
  Z.of_nat (length (filter (fun k => k ∉ keys pr G) (remove_dups (keys pr P)))).

(** The distinct keys of [G] that are not keys of [P]. *)
Definition false_negative_count (pr : char -> bool) (G P : list dict) : Z :=
  Z.of_nat (length (filter (fun k => k ∉ keys pr P) (remove_dups (keys pr G)))).

Lemma size_inter_lists (a b : list str) :
  size (list_to_set a ∩ list_to_set b : gset str)
  = length (filter (fun k => k ∈ b) (remove_dups a)).
Proof.
  rewrite <- (size_list_to_set (C := gset str))
    by apply NoDup_filter, NoDup_remove_dups.
  f_equal. apply set_eq. intros k.
  rewrite elem_of_intersection, !elem_of_list_to_set, list_elem_of_filter,
    elem_of_remove_dups.
  split; intros [? ?]; split; assumption.
Qed.

Lemma size_diff_lists (a b : list str) :
  size (list_to_set a ∖ list_to_set b : gset str)
  = length (filter (fun k => k ∉ b) (remove_dups a)).
Proof.
  rewrite <- (size_list_to_set (C := gset str))
    by apply NoDup_filter, NoDup_remove_dups.
  f_equal. apply set_eq. intros k.
  rewrite elem_of_difference, !elem_of_list_to_set, list_elem_of_filter,
    elem_of_remove_dups.
  split; intros [? ?]; split; assumption.
Qed.

Lemma int_truediv_le (n d : Z) :
  (0 <= n <= d)%Z -> (0 < d)%Z ->
  exists q, int_truediv n d = Ret q /\ nonneg_finite q.
Proof.
  intros Hn Hd. unfold int_truediv.
  destruct (Z.eqb_spec d 0) as [->|_]; [lia|].
  replace (n <? 0)%Z with false by (symmetry; apply Z.ltb_ge; lia).
  replace (d <? 0)%Z with false by (symmetry; apply Z.ltb_ge; lia).
  rewrite !Z.abs_eq by lia. cbn [xorb].
  pose proof (round_ratio_le n d Hn Hd) as H.
  destruct (Float64.round_ratio false n d) as [[]|[]| |[] m e]; cbn in H; try tauto;
    eexists; (split; [reflexivity | exact I]).
Qed.

Lemma ratio_or_zero_le (n d : Z) :
  (0 <= n <= d)%Z ->
  exists q,
    ratio_or_zero n d = Ret q /\ nonneg_finite q
    /\ (if (d =? 0)%Z then q = Float64.fzero else int_truediv n d = Ret q).
Proof.
  intros Hn. unfold ratio_or_zero.
  destruct (Z.ltb_spec 0 d) as [Hd|Hd].
  - destruct (int_truediv_le n d Hn Hd) as (q & E & Hq).
    exists q. rewrite E. destruct (Z.eqb_spec d 0); [lia|]. auto.
  - assert (d = 0)%Z as -> by lia. exists Float64.fzero. repeat split.
Qed.

Lemma f1_score_nonneg (p r : Float64.float) :
  nonneg_finite p -> nonneg_finite r ->
  exists f,
    f1_score p r = Ret f
    /\ (if Float64.feqb (Float64.fadd p r) Float64.fzero then f = Float64.fzero
        else float_truediv (Float64.fmul (Float64.fmul (Float64.of_Z 2) p) r)
               (Float64.fadd p r) = Ret f).
Proof.
  intros Hp Hr. unfold f1_score, float_truediv.
  rewrite (nonneg_gt_zero _ (fadd_nonneg p r Hp Hr)).
  destruct (Float64.feqb (Float64.fadd p r) Float64.fzero); cbn [negb];
    eexists; split; reflexivity.
Qed.

Lemma calculate_metrics_dicts pr (G P : list dict) :
  G <> [] ->
  let X : gset str := list_to_set (keys pr G) in
  let Y : gset str := list_to_set (keys pr P) in
  calculate_metrics pr (Some (VDict <$> G)) (VDict <$> P) =
    let tp := set_len (X ∩ Y) in
    let fp := set_len (Y ∖ X) in
    let fn := set_len (X ∖ Y) in
    let* precision := ratio_or_zero tp (tp + fp) in
    let* recall := ratio_or_zero tp (tp + fn) in
    let* f1 := f1_score precision recall in
    Ret (VDict [
      (u "precision", VFloat precision);
      (u "recall", VFloat recall);
      (u "f1", VFloat f1);
      (u "true_positives", VInt tp);
      (u "false_positives", VInt fp);
      (u "false_negatives", VInt fn)]).
Proof.
  intros HG X Y. unfold calculate_metrics.
  assert (truthy (VList (VDict <$> G)) = true) as ->
    by (destruct G; [contradiction | reflexivity]).
  cbn [negb]. change (default [] (Some (VDict <$> G))) with (VDict <$> G).
  rewrite !key_set_dicts. reflexivity.
Qed.

(** [0.5] *)
Definition fhalf : Float64.float := Float64.of_decimal false 5 (-1).

Lemma int_truediv_same (n : Z) : (0 < n)%Z -> int_truediv n n = Ret Float64.fone.
Proof.
  intros Hn. unfold int_truediv.
  destruct (Z.eqb_spec n 0); [lia|].
  replace (n <? 0)%Z with false by (symmetry; apply Z.ltb_ge; lia).
  rewrite Z.abs_eq by lia. cbn [xorb].
  rewrite round_ratio_same by lia. reflexivity.
Qed.

Lemma f1_score_one : f1_score Float64.fone Float64.fone = Ret Float64.fone.
Proof. vm_compute. reflexivity. Qed.

(** C3. For every non-empty ground truth [G] and every prediction list [P]
    (lists of entity records), [calculate_metrics] returns the counts of
    distinct keys in both lists, in [P] only and in [G] only, precision
    [tp / (tp + fp)] (or [0.0] when the denominator is 0), recall
    [tp / (tp + fn)] (likewise) and f1 [2 * precision * recall /
    (precision + recall)] (or [0.0] when that sum is 0), all in binary64
    arithmetic; scored against itself a non-empty list gets precision,
    recall and f1 [1.0]; and the tank and missile scenario gives counts 1, 1,
    0, precision [0.5], recall [1.0] and an f1 that prints as
    0.6666666666666666. *)
Theorem calculate_metrics_scores (pr : char -> bool) (G P : list dict) :
  G <> [] ->
  (let tp := true_positive_count pr G P in
   let fp := false_positive_count pr G P in
   let fn := false_negative_count pr G P in
   exists precision recall f1,
     calculate_metrics pr (Some (VDict <$> G)) (VDict <$> P) =
       Ret (VDict [
         (u "precision", VFloat precision);
         (u "recall", VFloat recall);
         (u "f1", VFloat f1);
         (u "true_positives", VInt tp);
         (u "false_positives", VInt fp);
         (u "false_negatives", VInt fn)])
     /\ (if (tp + fp =? 0)%Z then precision = Float64.fzero
         else int_truediv tp (tp + fp) = Ret precision)
     /\ (if (tp + fn =? 0)%Z then recall = Float64.fzero
         else int_truediv tp (tp + fn) = Ret recall)
     /\ (if Float64.feqb (Float64.fadd precision recall) Float64.fzero
         then f1 = Float64.fzero
         else float_truediv
                (Float64.fmul (Float64.fmul (Float64.of_Z 2) precision) recall)
                (Float64.fadd precision recall) = Ret f1))
  /\ calculate_metrics pr (Some (VDict <$> G)) (VDict <$> G) =
       Ret (VDict [
         (u "precision", VFloat Float64.fone);
         (u "recall", VFloat Float64.fone);
         (u "f1", VFloat Float64.fone);
         (u "true_positives", VInt (distinct_keys pr G));
         (u "false_positives", VInt 0);
         (u "false_negatives", VInt 0)])
  /\ (let tank := entity "坦克" "军事装备" in
      let missile := entity "导弹" "军事装备" in
      exists f1,
        calculate_metrics pr (Some [VDict tank]) [VDict tank; VDict missile] =
          Ret (VDict [
            (u "precision", VFloat fhalf);
            (u "recall", VFloat Float64.fone);
            (u "f1", VFloat f1);
            (u "true_positives", VInt 1);
            (u "false_positives", VInt 1);
            (u "false_negatives", VInt 0)])
        /\ Float64.repr f1 = u "0.6666666666666666").
Proof.
  intros HG. split; [|split].
  - intros tp fp fn. rewrite (calculate_metrics_dicts pr G P HG).
    unfold set_len. rewrite size_inter_lists, !size_diff_lists.
    fold (true_positive_count pr G P) (false_positive_count pr G P)
      (false_negative_count pr G P). fold tp fp fn. cbv zeta.
    assert (Htp : (0 <= tp)%Z) by (unfold tp, true_positive_count; lia).
    assert (Hfp : (0 <= fp)%Z) by (unfold fp, false_positive_count; lia).
    assert (Hfn : (0 <= fn)%Z) by (unfold fn, false_negative_count; lia).
    destruct (ratio_or_zero_le tp (tp + fp) ltac:(lia)) as (p & Ep & Hp & Sp).
    destruct (ratio_or_zero_le tp (tp + fn) ltac:(lia)) as (r & Er & Hr & Sr).
    destruct (f1_score_nonneg p r Hp Hr) as (f & Ef & Sf).
    exists p, r, f. rewrite Ep, Er. cbn [bind]. rewrite Ef. cbn [bind].
    repeat split; assumption.
  - rewrite (calculate_metrics_dicts pr G G HG).
    set (X := list_to_set (keys pr G) : gset str).
    replace (X ∩ X) with X by (symmetry; apply (idemp_L (∩))).
    rewrite difference_diag_L.
    replace (set_len ∅) with 0%Z by reflexivity. cbv zeta.
    assert (Hn : (0 < set_len X)%Z).
    { unfold set_len. destruct G as [|g G]; [contradiction|].
      assert (key_of pr g ∈ X) as Hin
        by (apply elem_of_list_to_set; unfold keys; rewrite fmap_cons; left).
      assert (size X <> 0%nat).
      { intros E. apply size_empty_inv in E.
        exact (not_elem_of_empty (C := gset str) _ (proj1 (E _) Hin)). }
      lia. }
    rewrite Z.add_0_r. unfold ratio_or_zero.
    destruct (Z.ltb_spec 0 (set_len X)) as [_|]; [|lia].
    rewrite int_truediv_same by lia. cbn [bind].
    rewrite f1_score_one. cbn [bind].
    unfold set_len, X, keys. rewrite size_key_set. reflexivity.
  - intros tank missile. exists (S754_finite false 6004799503160661 (-53)).
    split; vm_compute; reflexivity.
Qed.

(** C3 at the tank and missile scenario. *)
Lemma calculate_metrics_scores_witness :
  [entity "坦克" "军事装备"] <> []
  /\ exists f1,
      calculate_metrics isprintable_ascii (Some [VDict (entity "坦克" "军事装备")])
        [VDict (entity "坦克" "军事装备"); VDict (entity "导弹" "军事装备")] =
        Ret (VDict [
          (u "precision", VFloat fhalf);
          (u "recall", VFloat Float64.fone);
          (u "f1", VFloat f1);
          (u "true_positives", VInt 1);
          (u "false_positives", VInt 1);
          (u "false_negatives", VInt 0)])
      /\ Float64.repr f1 = u "0.6666666666666666".
Proof.
  split; [discriminate|].
  exact (proj2 (proj2 (calculate_metrics_scores isprintable_ascii
                         [entity "坦克" "军事装备"]
                         [entity "坦克" "军事装备"; entity "导弹" "军事装备"]
                         ltac:(discriminate)))).
Defined.

(** ** The response parser *)

(** *** Never raising *)

Lemma extract_from_text_returns pr (text : str) :
  exists v, extract_from_text pr text = Ret v.
Proof.
  unfold extract_from_text.
  destruct (collect (Re.findall text) []) as [ents err].
  destruct (extract_body pr text ents err); eexists; reflexivity.
Qed.

Lemma extract_from_text_handler pr (text : str) ents err e :
  collect (Re.findall text) [] = (ents, err) ->
  extract_body pr text ents err = Raise e ->
  extract_from_text pr text = Ret (VList ents).
Proof. intros Hc Hb. unfold extract_from_text. rewrite Hc, Hb. reflexivity. Qed.

(** C4. For every input string the response parser returns a value and
    raises nothing; on prose that holds no JSON, such as the sentinel phrase
    for no entities, it returns the empty list; and when an exception ends
    the [try] block, the entities gathered until then are returned, as on a
    block of two numbers, where the key of a number cannot be taken. *)
Theorem extract_never_raises (pr : char -> bool) (response_text : str) :
  (exists v, _extract_entities_from_response pr response_text = Ret v)
  /\ _extract_entities_from_response pr (u "没有找到任何实体和关系") = Ret (VList [])
  /\ (forall ents err e,
        collect (Re.findall (clean_text response_text)) [] = (ents, err) ->
        extract_body pr (clean_text response_text) ents err = Raise e ->
        _extract_entities_from_response pr response_text = Ret (VList ents))
  /\ (let text := j "{'entities':[1,2]}" in
      collect (Re.findall (clean_text text)) [] = ([VInt 1; VInt 2], None)
      /\ extract_body pr (clean_text text) [VInt 1; VInt 2] None = Raise AttributeError
      /\ _extract_entities_from_response pr text = Ret (VList [VInt 1; VInt 2])).
Proof.
  split; [apply extract_from_text_returns|].
  split; [vm_compute; reflexivity|].
  split; [intros ents err e; apply extract_from_text_handler|].
  intros text. split; [vm_compute; reflexivity|].
  split; vm_compute; reflexivity.
Qed.

(** C4 at a block of two numbers. *)
Lemma extract_never_raises_witness :
  _extract_entities_from_response isprintable_ascii (j "{'entities':[1,2]}")
  = Ret (VList [VInt 1; VInt 2]).
Proof.
  exact (proj1 (proj2 (proj2 (extract_never_raises isprintable_ascii
                                (j "{'entities':[1,2]}"))))
           [VInt 1; VInt 2] None AttributeError
           ltac:(vm_compute; reflexivity) ltac:(vm_compute; reflexivity)).
Defined.

(** *** The reasoning section *)

Lemma is_prefix_app (p s : str) :
  is_prefix p s = true <-> exists rest, s = p ++ rest.
Proof.
  revert s. induction p as [|a p IH]; intros s; cbn [is_prefix].
  - split; [eauto|reflexivity].
  - destruct s as [|b s].
    + split; [discriminate | intros [rest H]; discriminate].
    + rewrite andb_true_iff, N.eqb_eq, IH. split.
      * intros [-> [rest ->]]. exists rest. reflexivity.
      * intros [rest H]. injection H as -> ->. eauto.
Qed.

(** [find_from] returns [-1] when [sub] occurs nowhere in [s], and else the
    offset of the first place where it occurs. *)
Lemma find_from_spec (sub s : str) (i : Z) :
  (find_from sub s i = (-1)%Z
   /\ forall j, (j <= length s)%nat -> is_prefix sub (drop j s) = false)
  \/ (exists j,
        find_from sub s i = (i + Z.of_nat j)%Z
        /\ (j <= length s)%nat
        /\ is_prefix sub (drop j s) = true
        /\ forall j', (j' < j)%nat -> is_prefix sub (drop j' s) = false).
Proof.
  revert i. induction s as [|c s IH]; intros i; cbn [find_from].
  - destruct (is_prefix sub []) eqn:E.
    + right. exists 0%nat. rewrite Z.add_0_r. repeat split; [lia | exact E | lia].
    + left. split; [reflexivity|]. intros j _. rewrite drop_nil. exact E.
  - destruct (is_prefix sub (c :: s)) eqn:E.
    + right. exists 0%nat. rewrite Z.add_0_r. repeat split; [cbn; lia | exact E | lia].
    + destruct (IH (i + 1)%Z) as [[H1 H2]|(j & H1 & H2 & H3 & H4)].
      * left. split; [exact H1|]. intros [|j] Hj; [exact E|].
        cbn [drop]. apply H2. cbn in Hj. lia.
      * right. exists (S j). repeat split.
        -- rewrite H1. lia.
        -- cbn. lia.
        -- exact H3.
        -- intros [|j'] Hj'; [exact E|]. cbn [drop]. apply H4. lia.
Qed.

Lemma contains_false (sub s : str) :
  contains sub s = false -> find s sub = (-1)%Z.
Proof.
  unfold contains, find. intros H. apply Z.leb_gt in H.
  destruct (find_from_spec sub s 0) as [[E _]|(j & E & _)]; [exact E | lia].
Qed.

(** Where [sub] occurs in [s], [s] splits at its first occurrence. *)
Lemma contains_true (sub s : str) :
  contains sub s = true ->
  exists pre post,
    s = pre ++ sub ++ post
    /\ find s sub = Z.of_nat (length pre)
    /\ forall j, (j < length pre)%nat -> is_prefix sub (drop j s) = false.
Proof.
  unfold contains, find. intros H. apply Z.leb_le in H.
  destruct (find_from_spec sub s 0) as [[E _]|(j & E & Hj & Hp & Hfirst)]; [lia|].
  apply is_prefix_app in Hp as [post Hpost].
  exists (take j s), post.
  assert (Hlen : length (take j s) = j) by (rewrite length_take; lia).
  rewrite Hlen. repeat split.
  - rewrite <- Hpost. symmetry. apply take_drop.
  - rewrite E. lia.
  - exact Hfirst.
Qed.

Lemma clean_text_unclosed (text : str) :
  contains (u "</think>") text = false -> clean_text text = text.
Proof.
  intros H. unfold clean_text. rewrite (contains_false _ _ H).
  destruct (contains (u "<think>") text); reflexivity.
Qed.

Lemma clean_text_closed (text pre post : str) :
  contains (u "<think>") text = true ->
  text = pre ++ u "</think>" ++ post ->
  find text (u "</think>") = Z.of_nat (length pre) ->
  clean_text text = post.
Proof.
  intros Ho Ht Hf. unfold clean_text. rewrite Ho, Hf.
  destruct (Z.leb_spec 0 (Z.of_nat (length pre))) as [_|]; [|lia].
  unfold slice_from.
  destruct (Z.ltb_spec (Z.of_nat (length pre) + 8) 0) as [|_]; [lia|].
  replace (Z.to_nat (Z.of_nat (length pre) + 8)) with (length (pre ++ u "</think>"))
    by (rewrite length_app; change (length (u "</think>")) with 8%nat; lia).
  rewrite Ht, app_assoc. apply drop_app_length.
Qed.

(** C9. Let the text contain the opening reasoning marker.  Without a
    closing marker the parser works on the whole text.  With one, the text
    splits at the first closing marker, everything up to and including that
    marker is dropped, and the parser works on what follows it. *)
Theorem reasoning_section_removed (pr : char -> bool) (text : str) :
  contains (u "<think>") text = true ->
  (contains (u "</think>") text = false ->
     clean_text text = text
     /\ _extract_entities_from_response pr text = extract_from_text pr text)
  /\ (contains (u "</think>") text = true ->
      exists pre post,
        text = pre ++ u "</think>" ++ post
        /\ (forall j, (j < length pre)%nat ->
              is_prefix (u "</think>") (drop j text) = false)
        /\ clean_text text = post
        /\ _extract_entities_from_response pr text = extract_from_text pr post).
Proof.
  intros Ho. split.
  - intros Hc. unfold _extract_entities_from_response.
    rewrite (clean_text_unclosed text Hc). split; reflexivity.
  - intros Hc. destruct (contains_true _ _ Hc) as (pre & post & Ht & Hf & Hfirst).
    exists pre, post. unfold _extract_entities_from_response.
    rewrite (clean_text_closed text pre post Ho Ht Hf). repeat split; assumption.
Qed.

(** C9 at a text with an unclosed reasoning section. *)
Lemma reasoning_section_removed_witness :
  let text := j "<think>{'entities':[{'name':'a','type':'b'}]}" in
  contains (u "<think>") text = true
  /\ contains (u "</think>") text = false
  /\ clean_text text = text
  /\ _extract_entities_from_response isprintable_ascii text
     = extract_from_text isprintable_ascii text.
Proof.
  intros text. split; [vm_compute; reflexivity|]. split; [vm_compute; reflexivity|].
  exact (proj1 (reasoning_section_removed isprintable_ascii text
                  ltac:(vm_compute; reflexivity))
           ltac:(vm_compute; reflexivity)).
Defined.

(** *** A text that opens with a brace decodes to a dict *)

Module JsonFacts.
Import Json.

(** The outermost frame of the stack is an object. *)
Fixpoint obj_bottom (stk : list frame) : bool :=
  match stk with
  | [] => false
  | f :: stk' =>
      match stk' with
      | [] => match f with FObj _ _ => true | FArr _ => false end
      | _ :: _ => obj_bottom stk'
      end
  end.

(** The value under construction at the root is an object. *)
Definition root_is_object (st : pstate) : bool :=
  match st with
  | SDone v [] => match v with VDict _ => true | _ => false end
  | SValue stk | SArrOpen stk | SDone _ stk => obj_bottom stk
  | SObjOpen stk | SKey _ stk | SColon _ _ stk =>
      match stk with [] => true | _ => obj_bottom stk end
  end.

Lemma obj_bottom_push (f : frame) (stk : list frame) :
  stk <> [] -> obj_bottom (f :: stk) = obj_bottom stk.
Proof. destruct stk; [contradiction | reflexivity]. Qed.

Lemma start_value_root (stk : list frame) (t : token) (st' : pstate) :
  obj_bottom stk = true -> start_value stk t = Ret st' -> root_is_object st' = true.
Proof.
  intros H. destruct t; cbn [start_value]; try discriminate;
    try (destruct (Nat.ltb (length stk) max_nesting); try discriminate);
    intros E; injection E as <-; cbn [root_is_object];
    destruct stk; try discriminate; exact H.
Qed.

Lemma step_root (st st' : pstate) (t : token) :
  root_is_object st = true -> step st t = Ret st' -> root_is_object st' = true.
Proof.
  destruct st as [stk|stk|stk|done stk|done k stk|v stk]; cbn [step root_is_object].
  - apply start_value_root.
  - intros H. destruct t; try apply start_value_root;
      try (destruct stk; [discriminate H | exact H]).
    intros E. injection E as <-. cbn. destruct stk; try discriminate; exact H.
  - destruct t as [| | | | | |[]| | |]; cbn; intros H E; try discriminate;
      injection E as <-; cbn; exact H.
  - destruct t as [| | | | | |[]| | |]; cbn; intros H E; try discriminate;
      injection E as <-; cbn; exact H.
  - destruct t; cbn; intros H E; try discriminate; injection E as <-; cbn.
    destruct stk as [|f stk]; [reflexivity|]. exact H.
  - destruct stk as [|[done|done k] stk]; [discriminate| |];
      destruct t; cbn; intros H E; try discriminate; injection E as <-; cbn;
      destruct stk; try discriminate; try reflexivity; exact H.
Qed.

Lemma run_root (ts : list token) (st st' : pstate) :
  root_is_object st = true -> run st ts = Ret st' -> root_is_object st' = true.
Proof.
  revert st. induction ts as [|t ts IH]; intros st H; cbn [run].
  - intros E. injection E as <-. exact H.
  - destruct (step st t) as [st1|e] eqn:E1; [|discriminate].
    apply IH. exact (step_root st st1 t H E1).
Qed.

Lemma loads_brace (s : str) (v : value) :
  startswith s 123 = true -> loads s = Ret v -> exists d, v = VDict d.
Proof.
  destruct s as [|c r]; [discriminate|]. cbn [startswith].
  intros Hc%N.eqb_eq. subst c. unfold loads.
  change (lex 0 (123 :: r)) with (TLBrace :: lex 0 r).
  change (run (SValue []) (TLBrace :: lex 0 r)) with (run (SObjOpen []) (lex 0 r)).
  destruct (run (SObjOpen []) (lex 0 r)) as [[| | | | |v' [|]]|e] eqn:E; try discriminate.
  cbn [at_end]. intros H. injection H as ->.
  pose proof (run_root (lex 0 r) (SObjOpen []) _ eq_refl E) as R. cbn in R.
  destruct v; try discriminate. eauto.
Qed.

End JsonFacts.

(** *** The two loops of the parser *)

(** The text handed to [json.loads] for a match. *)
Definition block (m : str) : str := j "{'entities': [" ++ m ++ u "]}".

(** The list under [entities] of a decoded block, empty when there is
    none. *)
Definition entities_of (data : value) : list value :=
  match data with
  | VDict d =>
      match PyDict.lookup d (u "entities") with
      | Some (VList l) => l
      | _ => []
      end
  | _ => []
  end.

(** What a match adds: the list under [entities] when the block decodes,
    nothing when it is not JSON; any other exception of the decoder leaves
    the loop body. *)
Lemma match_entities_spec (m : str) :
  match_entities m =
    match Json.loads (block m) with
    | Ret data => Ret (entities_of data)
    | Raise JSONDecodeError => Ret []
    | Raise e => Raise e
    end.
Proof.
  unfold match_entities. fold (block m).
  destruct (Json.loads (block m)) as [data|e] eqn:E.
  - destruct (JsonFacts.loads_brace (block m) data eq_refl E) as [d ->].
    cbn [bind py_in except_json entities_of].
    destruct (PyDict.lookup d (u "entities")) as [v|] eqn:L.
    + cbn [py_getitem_str bind]. rewrite L. cbn [bind]. destruct v; reflexivity.
    + reflexivity.
  - destruct e; reflexivity.
Qed.

(** A line the fallback accepts: trimmed, it opens with a brace, closes
    with one, and decodes to a dict whose [entities] field is [v]. *)
Definition has_entities_field (line : str) (v : value) : Prop :=
  startswith (strip line) 123 = true
  /\ endswith (strip line) 125 = true
  /\ exists d, Json.loads (strip line) = Ret (VDict d)
               /\ PyDict.lookup d (u "entities") = Some v.

(** A line the fallback passes over: trimmed, it does not open and close
    with braces, or it is not JSON, or it decodes to a dict without an
    [entities] field. *)
Definition passed_over (line : str) : Prop :=
  startswith (strip line) 123 && endswith (strip line) 125 = false
  \/ Json.loads (strip line) = Raise JSONDecodeError
  \/ exists d, Json.loads (strip line) = Ret (VDict d)
               /\ PyDict.lookup d (u "entities") = None.

Lemma line_entities_spec (line : str) :
  line_entities line =
    if startswith (strip line) 123 && endswith (strip line) 125 then
      match Json.loads (strip line) with
      | Ret (VDict d) => Ret (PyDict.lookup d (u "entities"))
      | Ret _ => Ret None
      | Raise JSONDecodeError => Ret None
      | Raise e => Raise e
      end
    else Ret None.
Proof.
  unfold line_entities.
  destruct (startswith (strip line) 123) eqn:Hs; [|reflexivity].
  destruct (endswith (strip line) 125); [|reflexivity]. cbn [andb].
  destruct (Json.loads (strip line)) as [data|e] eqn:E.
  - destruct (JsonFacts.loads_brace _ data Hs E) as [d ->].
    cbn [bind py_in except_json]. destruct (PyDict.lookup d (u "entities")) as [v|] eqn:L.
    + cbn [py_getitem_str bind]. rewrite L. reflexivity.
    + reflexivity.
  - destruct e; reflexivity.
Qed.

Lemma line_entities_accepts (line : str) (v : value) :
  has_entities_field line v -> line_entities line = Ret (Some v).
Proof.
  intros (Hs & He & d & Hd & Hv). rewrite line_entities_spec, Hs, He, Hd.
  cbn [andb]. rewrite Hv. reflexivity.
Qed.

Lemma line_entities_passed_over (line : str) :
  passed_over line -> line_entities line = Ret None.
Proof.
  intros H. rewrite line_entities_spec.
  destruct (startswith (strip line) 123 && endswith (strip line) 125) eqn:Hb;
    [|reflexivity].
  destruct H as [H|[H|(d & Hd & Hv)]].
  - rewrite Hb in H. discriminate H.
  - rewrite H. reflexivity.
  - rewrite Hd, Hv. reflexivity.
Qed.

Lemma scan_lines_first (before after : list str) (line : str) (v : value) :
  (forall l, l ∈ before -> passed_over l) ->
  has_entities_field line v ->
  scan_lines (before ++ line :: after) = Ret (Some v).
Proof.
  intros Hb Hl. induction before as [|l before IH]; cbn [app scan_lines].
  - rewrite (line_entities_accepts line v Hl). reflexivity.
  - rewrite (line_entities_passed_over l) by (apply Hb; left). cbn [bind].
    apply IH. intros l' Hl'. apply Hb. right. exact Hl'.
Qed.

(** A line of more than 4300 nines between braces, which is JSON but for
    the size of its number. *)
Definition long_number_line : str :=
  j "{'x': " ++ repeat 57 4301 ++ u "}".

(** C10. When the first loop ends without gathering an entity and the
    fallback, having passed over the lines before it, meets a line that,
    trimmed, opens and closes with a brace and decodes to a dict with an
    [entities] field, the parser returns the value of that field as it is:
    it is not deduplicated, so it can hold one key twice, and it is not
    checked to be a list, so it can be a number or a string.  The fallback
    does not reach a line that comes after one on which the decoder raises
    something else than [JSONDecodeError]: there the parser returns the
    empty list. *)
Theorem fallback_returns_field_verbatim (pr : char -> bool) :
  (forall (response_text : str) (before after : list str) (line : str) (v : value),
      collect (Re.findall (clean_text response_text)) [] = ([], None) ->
      split 10 (strip (clean_text response_text)) = before ++ line :: after ->
      (forall l, l ∈ before -> passed_over l) ->
      has_entities_field line v ->
      _extract_entities_from_response pr response_text = Ret v)
  /\ (let a := entity "a]" "b" in
      _extract_entities_from_response pr
        (j "{'entities':[{'name':'a]','type':'b'},{'name':'a]','type':'b'}]}")
      = Ret (VList [VDict a; VDict a])
      /\ entity_key pr (VDict a) = Ret (u "a]|b"))
  /\ _extract_entities_from_response pr (j "{'entities': 7}") = Ret (VInt 7)
  /\ _extract_entities_from_response pr (j "{'entities': 'none'}")
     = Ret (VStr (u "none"))
  /\ (Json.loads long_number_line = Raise ValueError
      /\ _extract_entities_from_response pr
           (long_number_line ++ [10] ++ j "{'entities': 7}")
         = Ret (VList [])).
Proof.
  split.
  - intros response_text before after line v Hc Hsplit Hb Hl.
    unfold _extract_entities_from_response, extract_from_text.
    rewrite Hc. unfold extract_body. cbn [truthy negb]. rewrite Hsplit.
    rewrite (scan_lines_first before after line v Hb Hl). reflexivity.
  - split; [|split; [|split]]; [|vm_compute; reflexivity..|].
    + intros a. split; vm_compute; reflexivity.
    + split; vm_compute; reflexivity.
Qed.

(** C10 at a line whose [entities] field is a number, after a line of
    prose and a line that is not JSON. *)
Lemma fallback_returns_field_verbatim_witness :
  _extract_entities_from_response isprintable_ascii
    (j "结果如下
{'entities': }
{'entities': 7}")
  = Ret (VInt 7).
Proof.
  refine (proj1 (fallback_returns_field_verbatim isprintable_ascii)
            _ [u "结果如下"; j "{'entities': }"] [] (j "{'entities': 7}") (VInt 7)
            _ _ _ _).
  - vm_compute. reflexivity.
  - vm_compute. reflexivity.
  - intros l [->|[->|Hl]%elem_of_cons]%elem_of_cons.
    + left. vm_compute. reflexivity.
    + right. left. vm_compute. reflexivity.
    + destruct (proj1 (elem_of_nil l) Hl).
  - split; [vm_compute; reflexivity|]. split; [vm_compute; reflexivity|].
    exists [(u "entities", VInt 7)]. split; vm_compute; reflexivity.
Defined.

(** *** Deduplication *)

(** The first occurrence of every key, in the order of the list. *)
Fixpoint keep_first (pr : char -> bool) (l : list dict) : list dict :=
  match l with
  | [] => []
  | x :: r => x :: filter (fun y => key_of pr y <> key_of pr x) (keep_first pr r)
  end.

(** The loop with its set of seen keys computes [keep_first]. *)
Lemma unique_keep_first (pr : char -> bool) (l : list dict) (seen : gset str) (acc : list value) :
  unique pr (VDict <$> l) seen acc =
    Ret (acc ++ (VDict <$> filter (fun y => key_of pr y ∉ seen) (keep_first pr l))).
Proof.
  revert seen acc. induction l as [|x r IH]; intros seen acc.
  - cbn. rewrite app_nil_r. reflexivity.
  - rewrite fmap_cons. cbn [unique keep_first]. rewrite entity_key_dict. cbn [bind].
    destruct (decide (key_of pr x ∈ seen)) as [Hin|Hnin].
    + rewrite IH. rewrite filter_cons_False by (intros H; exact (H Hin)).
      rewrite list_filter_filter_l; [reflexivity|].
      intros y Hy E. apply Hy. rewrite E. exact Hin.
    + rewrite IH. rewrite filter_cons_True by exact Hnin.
      rewrite list_filter_filter, fmap_cons, <- app_assoc. cbn [app].
      do 4 f_equal. apply list_filter_iff. intros y.
      rewrite elem_of_union, elem_of_singleton. split.
      * intros H. split; [intros Hs | intros E]; apply H; [right | left]; assumption.
      * intros [H1 H2] [E|Hs]; [exact (H2 E) | exact (H1 Hs)].
Qed.

Lemma unique_from_empty (pr : char -> bool) (l : list dict) :
  unique pr (VDict <$> l) ∅ [] = Ret (VDict <$> keep_first pr l).
Proof.
  rewrite unique_keep_first. cbn [app]. do 2 f_equal.
  induction (keep_first pr l) as [|y k IH]; [reflexivity|].
  rewrite filter_cons_True by apply not_elem_of_empty. f_equal. exact IH.
Qed.

Lemma keep_first_sublist (pr : char -> bool) (l : list dict) : keep_first pr l `sublist_of` l.
Proof.
  induction l as [|x r IH]; cbn [keep_first]; [constructor|].
  apply sublist_skip. etransitivity; [apply sublist_filter | exact IH].
Qed.


Lemma keep_first_NoDup (pr : char -> bool) (l : list dict) : NoDup (keys pr (keep_first pr l)).
Proof.
  unfold keys. induction l as [|x r IH]; cbn [keep_first]; [constructor|].
  rewrite fmap_cons. constructor.
  - rewrite list_elem_of_fmap. intros (y & E & Hy).
    apply list_elem_of_filter in Hy as [Hne _]. exact (Hne (eq_sym E)).
  - eapply sublist_NoDup; [exact IH|]. apply fmap_sublist, sublist_filter.
Qed.


Lemma filter_other_keys (pr : char -> bool) (x : dict) (r : list dict) :
  key_of pr x ∉ keys pr r ->
  filter (fun y => key_of pr y <> key_of pr x) r = r.
Proof.
  unfold keys. induction r as [|y r IH]; [reflexivity|].
  rewrite fmap_cons. intros [Hxy Hx]%not_elem_of_cons.
  rewrite filter_cons_True by (intros E; exact (Hxy (eq_sym E))).
  f_equal. exact (IH Hx).
Qed.

Lemma keep_first_distinct (pr : char -> bool) (l : list dict) :
  NoDup (keys pr l) -> keep_first pr l = l.
Proof.
  unfold keys. induction l as [|x r IH]; [reflexivity|].
  rewrite fmap_cons. intros [Hx Hr]%NoDup_cons. cbn [keep_first].
  rewrite (IH Hr). f_equal. apply filter_other_keys, Hx.
Qed.


(** *** Blocks found by the first loop *)

Lemma match_entities_block (m : str) (d : dict) (l : list value) :
  Json.loads (block m) = Ret (VDict d) ->
  PyDict.lookup d (u "entities") = Some (VList l) ->
  match_entities m = Ret l.
Proof.
  intros Hd Hl. rewrite match_entities_spec, Hd. cbn [entities_of]. rewrite Hl.
  reflexivity.
Qed.

(** When the first loop ends without an exception and has gathered a
    non-empty list of records, the parser returns the first record of every
    key. *)
Lemma extract_from_text_dicts (pr : char -> bool) (text : str) (es : list dict) :
  collect (Re.findall text) [] = (VDict <$> es, None) ->
  es <> [] ->
  extract_from_text pr text = Ret (VList (VDict <$> keep_first pr es)).
Proof.
  intros Hc Hne. unfold extract_from_text. rewrite Hc. unfold extract_body.
  assert (truthy (VList (VDict <$> es)) = true) as ->
    by (destruct es; [contradiction | reflexivity]).
  cbn [negb bind]. rewrite unique_from_empty. reflexivity.
Qed.

(** C5, as stated, fails twice.  A block inside a closed reasoning section
    is dropped with that section, so its entity is not returned; and a block
    with an empty list leaves the fallback free to return the [entities]
    field of a later line, here the number 7. *)
Lemma single_block_not_returned :
  (let text :=
     j "<think>{'entities':[{'name':'a','type':'b'}]}</think>done" in
   Re.findall text = [j "{'name':'a','type':'b'}"]
   /\ Json.loads (block (j "{'name':'a','type':'b'}"))
      = Ret (VDict [(u "entities", VList [VDict (entity "a" "b")])])
   /\ _extract_entities_from_response isprintable_ascii text = Ret (VList []))
  /\ (let text := j "x {'entities':[]}
{'entities':7}" in
      Re.findall text = [[]]
      /\ Json.loads (block []) = Ret (VDict [(u "entities", VList [])])
      /\ _extract_entities_from_response isprintable_ascii text = Ret (VInt 7)).
Proof.
  split; intros text; (split; [|split]); vm_compute; reflexivity.
Qed.

(** C5, amended. When the text left after the reasoning section is removed
    has exactly one match of the pattern, and that block decodes to a list
    of N >= 1 entity records with pairwise distinct keys, the parser returns
    exactly those N records in their order. *)
Theorem single_block_returned (pr : char -> bool) (response_text m : str)
    (d : dict) (es : list dict) :
  Re.findall (clean_text response_text) = [m] ->
  Json.loads (block m) = Ret (VDict d) ->
  PyDict.lookup d (u "entities") = Some (VList (VDict <$> es)) ->
  es <> [] ->
  NoDup (keys pr es) ->
  _extract_entities_from_response pr response_text = Ret (VList (VDict <$> es)).
Proof.
  intros Hm Hd Hl Hne Hnd. unfold _extract_entities_from_response.
  rewrite (extract_from_text_dicts pr _ es).
  - rewrite (keep_first_distinct pr es Hnd). reflexivity.
  - rewrite Hm. cbn [collect]. rewrite (match_entities_block m d _ Hd Hl).
    reflexivity.
  - exact Hne.
Qed.

(** C5, amended, at a block of two records after some prose. *)
Lemma single_block_returned_witness :
  _extract_entities_from_response isprintable_ascii
    (j "结果: {'entities': [{'name':'坦克','type':'军事装备'}, {'name':'兰州','type':'地理位置'}]}")
  = Ret (VList (VDict <$> [entity "坦克" "军事装备"; entity "兰州" "地理位置"])).
Proof.
  refine (single_block_returned isprintable_ascii _
            (j "{'name':'坦克','type':'军事装备'}, {'name':'兰州','type':'地理位置'}")
            [(u "entities", VList (VDict <$> [entity "坦克" "军事装备"; entity "兰州" "地理位置"]))]
            [entity "坦克" "军事装备"; entity "兰州" "地理位置"] _ _ _ _ _).
  - vm_compute. reflexivity.
  - vm_compute. reflexivity.
  - vm_compute. reflexivity.
  - discriminate.
  - match goal with |- ?G => apply (@bool_decide_unpack G _) end.
    vm_compute. exact I.
Defined.





(** ** The dispatcher *)

(** The record of a failed call. *)
Definition failed_result (exn_str : exn -> str) (model : str)
    (clock : Float64.float * Float64.float) (e : exn) : ModelResult :=
  {| model_name := model;
     entities := VList [];
     inference_time := Float64.fsub (snd clock) (fst clock);
     success := false;
     error_message := exn_str e;
     raw_response := VStr [] |}.

Lemma extract_entities_single_fails pr exn_str net clock text api_url model e :
  fetch_content net api_url (payload model (format_ner_prompt text)) = Raise e ->
  extract_entities_single pr exn_str net clock text api_url model
  = Ret (failed_result exn_str model clock e).
Proof.
  intros H. unfold extract_entities_single. cbv zeta. rewrite H. reflexivity.
Qed.


(** An instance of [str(e)] for the examples: the text that an exception of
    [requests] carries, and the name of the class for the others. *)
Definition exn_text (e : exn) : str :=
  match e with
  | RequestException msg => msg
  | JSONDecodeError => u "JSONDecodeError"
  | AttributeError => u "AttributeError"
  | TypeError => u "TypeError"
  | KeyError _ => u "KeyError"
  | IndexError => u "IndexError"
  | ZeroDivisionError => u "ZeroDivisionError"
  | OverflowError => u "OverflowError"
  | ValueError => u "ValueError"
  | RecursionError => u "RecursionError"
  end.






(** The pair of [extract_entities_both] is made of the two calls: the record
    of the call to the base endpoint, then that of the call to the LoRA
    endpoint. *)
Lemma extract_entities_both_pair pr exn_str self net base_clock lora_clock text :
  exists base_result lora_result,
    extract_entities_single pr exn_str net base_clock text (base_api_url self)
      (u "qwen3-base") = Ret base_result
    /\ extract_entities_single pr exn_str net lora_clock text (lora_api_url self)
         (u "qwen3-ner-zero3") = Ret lora_result
    /\ extract_entities_both pr exn_str self net base_clock lora_clock text
       = Ret (base_result, lora_result).
Proof.
  unfold extract_entities_both.
  destruct (extract_entities_single pr exn_str net base_clock text (base_api_url self)
              (u "qwen3-base")) as [b|e] eqn:Eb.
  - destruct (extract_entities_single pr exn_str net lora_clock text (lora_api_url self)
                (u "qwen3-ner-zero3")) as [l|e] eqn:El.
    + exists b, l. repeat split.
    + exfalso. revert El. unfold extract_entities_single. cbv zeta.
      destruct (let* response_text := fetch_content net (lora_api_url self)
                  (payload (u "qwen3-ner-zero3") (format_ner_prompt text)) in
                let* ents := extract_entities_from_content pr response_text in _);
        discriminate.
  - exfalso. revert Eb. unfold extract_entities_single. cbv zeta.
    destruct (let* response_text := fetch_content net (base_api_url self)
                (payload (u "qwen3-base") (format_ner_prompt text)) in
              let* ents := extract_entities_from_content pr response_text in _);
      discriminate.
Qed.











(** * Further properties *)

(** ** The fragment finder *)

Lemma literal_app (lit s : str) : Re.literal lit (lit ++ s) = Some s.
Proof.
  induction lit as [|a lit IH]; cbn [Re.literal app]; [reflexivity|].
  rewrite N.eqb_refl. exact IH.
Qed.

Lemma literal_head (c : N) (s : str) :
  startswith s c = false -> Re.literal [c] s = None.
Proof.
  destruct s as [|b s]; cbn [startswith Re.literal]; [reflexivity|].
  rewrite (N.eqb_sym c b). intros ->. reflexivity.
Qed.

Lemma match_at_head (s : str) : startswith s 123 = false -> Re.match_at s = None.
Proof. intros H. unfold Re.match_at. rewrite (literal_head 123 s H). reflexivity. Qed.

Lemma startswith_elem (s : str) (c : char) : startswith s c = true -> c ∈ s.
Proof.
  destruct s as [|b s]; cbn [startswith]; [discriminate|].
  intros ->%N.eqb_eq. left.
Qed.

Lemma startswith_absent (s : str) (c : char) : c ∉ s -> startswith s c = false.
Proof.
  intros H. destruct (startswith s c) eqn:E; [|reflexivity].
  destruct (H (startswith_elem s c E)).
Qed.

(** Where the text has no opening brace the pattern matches nowhere. *)
Lemma findall_from_no_brace (s : str) (skip : nat) :
  123 ∉ s -> Re.findall_from skip s = [].
Proof.
  revert skip. induction s as [|c s IH]; intros skip H; [reflexivity|].
  cbn [Re.findall_from].
  assert (Hs : 123 ∉ s) by (intros Hin; apply H; right; exact Hin).
  destruct skip as [|k]; [|exact (IH k Hs)].
  rewrite (match_at_head (c :: s) (startswith_absent _ _ H)). exact (IH 0%nat Hs).
Qed.

Lemma until_bracket_group (s g rest : str) :
  Re.until_bracket s = Some (g, rest) -> (93 ∉ g) /\ s = g ++ 93 :: rest.
Proof.
  revert g. induction s as [|c s IH]; intros g; cbn [Re.until_bracket]; [discriminate|].
  destruct (N.eqb_spec c 93) as [->|Hc].
  - intros E. injection E as <- <-. split; [apply not_elem_of_nil | reflexivity].
  - destruct (Re.until_bracket s) as [[g' rest']|]; [|discriminate].
    intros E. injection E as <- <-. destruct (IH g' eq_refl) as [Hg ->].
    split; [|reflexivity].
    intros [E|Hin]%elem_of_cons; [exact (Hc (eq_sym E)) | exact (Hg Hin)].
Qed.

Lemma until_bracket_app (g rest : str) :
  93 ∉ g -> Re.until_bracket (g ++ 93 :: rest) = Some (g, rest).
Proof.
  induction g as [|c g IH]; intros H; cbn [app Re.until_bracket].
  - reflexivity.
  - destruct (N.eqb_spec c 93) as [->|_]; [destruct H; left|].
    rewrite IH; [reflexivity|]. intros Hin. apply H. right. exact Hin.
Qed.

Lemma match_at_group (s g : str) (n : nat) :
  Re.match_at s = Some (g, n) -> 93 ∉ g.
Proof.
  unfold Re.match_at.
  destruct (Re.literal [123] s) as [s1|]; [|discriminate]. cbn [mbind option_bind].
  destruct (Re.skip_space s1) as [n1 s2].
  destruct (Re.literal (j "'entities'") s2) as [s3|]; [|discriminate]. cbn [mbind option_bind].
  destruct (Re.skip_space s3) as [n2 s4].
  destruct (Re.literal [58] s4) as [s5|]; [|discriminate]. cbn [mbind option_bind].
  destruct (Re.skip_space s5) as [n3 s6].
  destruct (Re.literal [91] s6) as [s7|]; [|discriminate]. cbn [mbind option_bind].
  destruct (Re.until_bracket s7) as [[g' s8]|] eqn:E; [|discriminate].
  cbn [mbind option_bind].
  destruct (Re.skip_space s8) as [n4 s9].
  destruct (Re.literal [125] s9) as [s10|]; [|discriminate]. cbn [mbind option_bind].
  intros H. injection H as <- _. exact (proj1 (until_bracket_group _ _ _ E)).
Qed.

(** X1. No text that the pattern captures holds a closing bracket: the inner
    text of a match stops at the first one. *)
Theorem findall_groups_have_no_bracket (s m : str) :
  m ∈ Re.findall s -> 93 ∉ m.
Proof.
  unfold Re.findall. generalize 0%nat as skip. induction s as [|c s IH]; intros skip.
  - intros H. destruct (proj1 (elem_of_nil m) H).
  - cbn [Re.findall_from]. destruct skip as [|k]; [|apply IH].
    destruct (Re.match_at (c :: s)) as [[g n]|] eqn:E; [|apply IH].
    intros [->|H]%elem_of_cons; [exact (match_at_group _ _ _ E) | exact (IH _ H)].
Qed.

(** The property at a block whose entity name holds a closing bracket: the
    capture ends inside the name. *)
Lemma findall_groups_have_no_bracket_witness :
  93 ∉ j "{'name':'a".
Proof.
  apply (findall_groups_have_no_bracket (j "{'entities':[{'name':'a]}") (j "{'name':'a")).
  vm_compute. left.
Defined.

Lemma skip_space_app (w s : str) :
  Forall (fun c => is_space c = true) w ->
  match s with c :: _ => is_space c = false | [] => True end ->
  Re.skip_space (w ++ s) = (length w, s).
Proof.
  intros Hw Hs. induction Hw as [|c w Hc Hw IH]; cbn [app].
  - destruct s as [|c s]; cbn [Re.skip_space]; [reflexivity|]. rewrite Hs. reflexivity.
  - cbn [Re.skip_space]. rewrite Hc, IH. reflexivity.
Qed.

Lemma findall_from_skip (a b : str) :
  Re.findall_from (length a) (a ++ b) = Re.findall_from 0 b.
Proof.
  induction a as [|c a IH]; [reflexivity|]. cbn [length app].
  destruct a as [|c' a]; cbn [Re.findall_from length app] in *.
  - destruct b; reflexivity.
  - exact IH.
Qed.

Lemma findall_from_prefix (pre s : str) :
  123 ∉ pre -> Re.findall_from 0 (pre ++ s) = Re.findall_from 0 s.
Proof.
  induction pre as [|c pre IH]; intros H; [reflexivity|]. cbn [app Re.findall_from].
  rewrite match_at_head.
  - apply IH. intros Hin. apply H. right. exact Hin.
  - cbn [startswith]. apply N.eqb_neq. intros ->. apply H. left.
Qed.

(** A block in the shape the pattern looks for, with white space [w1] to
    [w4] around its tokens: what stands between the braces, and the block. *)
Definition spaced_body (w1 w2 w3 w4 inner : str) : str :=
  w1 ++ j "'entities'" ++ w2 ++ [58] ++ w3 ++ [91] ++ inner ++ [93] ++ w4.

Definition spaced_block (w1 w2 w3 w4 inner : str) : str :=
  [123] ++ spaced_body w1 w2 w3 w4 inner ++ [125].

Lemma match_at_spaced_block (w1 w2 w3 w4 inner post : str) :
  Forall (fun c => is_space c = true) w1 ->
  Forall (fun c => is_space c = true) w2 ->
  Forall (fun c => is_space c = true) w3 ->
  Forall (fun c => is_space c = true) w4 ->
  93 ∉ inner ->
  Re.match_at (spaced_block w1 w2 w3 w4 inner ++ post)
  = Some (inner, S (length (spaced_body w1 w2 w3 w4 inner))).
Proof.
  intros H1 H2 H3 H4 Hi. unfold spaced_block, spaced_body, Re.match_at.
  rewrite <- !app_assoc. rewrite (literal_app [123]). cbn [mbind option_bind].
  rewrite (skip_space_app w1) by (exact H1 || reflexivity).
  rewrite (literal_app (j "'entities'")). cbn [mbind option_bind].
  rewrite (skip_space_app w2) by (exact H2 || reflexivity).
  rewrite (literal_app [58]). cbn [mbind option_bind].
  rewrite (skip_space_app w3) by (exact H3 || reflexivity).
  rewrite (literal_app [91]). cbn [mbind option_bind].
  change ([93] ++ w4 ++ [125] ++ post) with (93 :: (w4 ++ [125] ++ post)).
  rewrite (until_bracket_app inner _ Hi). cbn [mbind option_bind].
  rewrite (skip_space_app w4) by (exact H4 || reflexivity).
  rewrite (literal_app [125]). cbn [mbind option_bind].
  do 2 f_equal. rewrite !length_app.
  change (length (j "'entities'")) with 10%nat. cbn [length].
  unfold str, char in *. lia.
Qed.

Lemma findall_block_between (pre w1 w2 w3 w4 inner post : str) :
  123 ∉ pre -> 123 ∉ post ->
  Forall (fun c => is_space c = true) w1 ->
  Forall (fun c => is_space c = true) w2 ->
  Forall (fun c => is_space c = true) w3 ->
  Forall (fun c => is_space c = true) w4 ->
  93 ∉ inner ->
  Re.findall (pre ++ spaced_block w1 w2 w3 w4 inner ++ post) = [inner].
Proof.
  intros Hpre Hpost H1 H2 H3 H4 Hi. unfold Re.findall.
  rewrite (findall_from_prefix pre _ Hpre).
  pose proof (match_at_spaced_block w1 w2 w3 w4 inner post H1 H2 H3 H4 Hi) as Hm.
  unfold spaced_block in *. cbn [app Re.findall_from] in *. rewrite Hm. f_equal.
  cbn [pred]. rewrite <- app_assoc, findall_from_skip.
  apply findall_from_no_brace. cbn [app].
  intros [E|Hin]%elem_of_cons; [discriminate E | exact (Hpost Hin)].
Qed.

(** X2. The pattern tolerates white space of any kind and length around its
    tokens and prose around the block: in a text whose only opening braces
    are those of one such block, it finds exactly the inner text of the
    block. *)
Theorem findall_spaced_block (pre w1 w2 w3 w4 inner post : str) :
  123 ∉ pre -> 123 ∉ post ->
  Forall (fun c => is_space c = true) w1 ->
  Forall (fun c => is_space c = true) w2 ->
  Forall (fun c => is_space c = true) w3 ->
  Forall (fun c => is_space c = true) w4 ->
  93 ∉ inner ->
  Re.findall (pre ++ spaced_block w1 w2 w3 w4 inner ++ post) = [inner].
Proof. apply findall_block_between. Qed.

(** The property at a block spread over three lines, with an ideographic
    space after the colon, between two pieces of prose. *)
Lemma findall_spaced_block_witness :
  Re.findall (j "结果如下：{
  'entities' :　[{'name':'坦克','type':'军事装备'}]
} 完毕")
  = [j "{'name':'坦克','type':'军事装备'}"].
Proof.
  refine (findall_spaced_block (u "结果如下：") [10; 32; 32] [32] [12288] [10]
            (j "{'name':'坦克','type':'军事装备'}") (u " 完毕") _ _ _ _ _ _ _).
  - match goal with |- ?G => apply (@bool_decide_unpack G _) end.
    vm_compute. exact I.
  - match goal with |- ?G => apply (@bool_decide_unpack G _) end.
    vm_compute. exact I.
  - repeat constructor.
  - repeat constructor.
  - repeat constructor.
  - repeat constructor.
  - match goal with |- ?G => apply (@bool_decide_unpack G _) end.
    vm_compute. exact I.
Defined.

(** ** The parser on texts without a brace *)

Lemma lstrip_elem (c : char) (s : str) : c ∈ lstrip s -> c ∈ s.
Proof.
  induction s as [|b s IH]; cbn [lstrip]; [auto|].
  destruct (is_space b); [|auto]. intros H. right. exact (IH H).
Qed.

Lemma strip_elem (c : char) (s : str) : c ∈ strip s -> c ∈ s.
Proof.
  unfold strip, rstrip. rewrite !list_elem_of_In, <- in_rev, <- !list_elem_of_In.
  intros H%lstrip_elem. apply lstrip_elem.
  revert H. rewrite !list_elem_of_In, <- in_rev. auto.
Qed.

Lemma split_elem (sep c : char) (s line : str) :
  line ∈ split sep s -> c ∈ line -> c ∈ s.
Proof.
  revert line. induction s as [|b s IH]; intros line; cbn [split].
  - intros ->%list_elem_of_singleton Hc. exact Hc.
  - destruct (b =? sep).
    + intros [->|Hl]%elem_of_cons Hc; [destruct (proj1 (elem_of_nil c) Hc)|].
      right. exact (IH line Hl Hc).
    + destruct (split sep s) as [|h t].
      * intros ->%list_elem_of_singleton Hc.
        apply elem_of_cons in Hc as [->|Hc]; [left|].
        destruct (proj1 (elem_of_nil c) Hc).
      * intros [->|Hl]%elem_of_cons Hc.
        -- apply elem_of_cons in Hc as [->|Hc]; [left|].
           right. apply (IH h); [left | exact Hc].
        -- right. apply (IH line); [right; exact Hl | exact Hc].
Qed.

(** The text the parser works on is an end of the text it was given. *)
Lemma clean_text_drop (text : str) : exists n, clean_text text = drop n text.
Proof.
  unfold clean_text. destruct (contains (u "<think>") text); [|exists 0%nat; reflexivity].
  destruct (0 <=? find text (u "</think>"))%Z eqn:E; [|exists 0%nat; reflexivity].
  unfold slice_from. apply Z.leb_le in E.
  destruct (Z.ltb_spec (find text (u "</think>") + 8) 0) as [|_]; [lia|].
  eexists. reflexivity.
Qed.

Lemma clean_text_elem (c : char) (text : str) : c ∈ clean_text text -> c ∈ text.
Proof.
  destruct (clean_text_drop text) as [n ->].
  intros H. exact (elem_of_sublist _ _ _ H (sublist_drop _ _)).
Qed.

Lemma scan_lines_none (lines : list str) :
  (forall l, l ∈ lines -> line_entities l = Ret None) -> scan_lines lines = Ret None.
Proof.
  induction lines as [|l lines IH]; intros H; cbn [scan_lines]; [reflexivity|].
  rewrite (H l) by left. cbn [bind]. apply IH. intros l' Hl'. apply H. right. exact Hl'.
Qed.

Lemma line_entities_no_brace (line : str) : 123 ∉ line -> line_entities line = Ret None.
Proof.
  intros H. rewrite line_entities_spec.
  rewrite (startswith_absent (strip line) 123); [reflexivity|].
  intros Hin. exact (H (strip_elem _ _ Hin)).
Qed.

Lemma extract_from_text_no_brace (pr : char -> bool) (text : str) :
  123 ∉ text -> extract_from_text pr text = Ret (VList []).
Proof.
  intros H. unfold extract_from_text, Re.findall.
  rewrite (findall_from_no_brace text 0 H). cbn [collect extract_body truthy negb].
  rewrite scan_lines_none; [reflexivity|].
  intros l Hl. apply line_entities_no_brace. intros Hin.
  apply H. apply strip_elem. exact (split_elem 10 123 _ l Hl Hin).
Qed.

(** X3. A reply without any opening brace (prose, the sentinel phrase the
    prompt asks for when there is no entity, an apology) is parsed to the
    empty list, whatever else it holds. *)
Theorem no_brace_no_entities (pr : char -> bool) (response_text : str) :
  123 ∉ response_text ->
  _extract_entities_from_response pr response_text = Ret (VList []).
Proof.
  intros H. unfold _extract_entities_from_response.
  apply extract_from_text_no_brace. intros Hin. exact (H (clean_text_elem _ _ Hin)).
Qed.

(** The property at a reply that reasons first and then finds nothing. *)
Lemma no_brace_no_entities_witness :
  _extract_entities_from_response isprintable_ascii
    (u "<think>文本中没有实体 [] </think>
没有找到任何实体和关系")
  = Ret (VList []).
Proof.
  apply no_brace_no_entities.
  match goal with |- ?G => apply (@bool_decide_unpack G _) end.
  vm_compute. exact I.
Defined.

(** ** The first loop *)

(** The loop over two runs of fragments: the second run is reached when no
    exception ended the first. *)
Lemma collect_app (ms1 ms2 : list str) (acc : list value) :
  collect (ms1 ++ ms2) acc =
    match collect ms1 acc with
    | (ents, None) => collect ms2 ents
    | (ents, Some e) => (ents, Some e)
    end.
Proof.
  revert acc. induction ms1 as [|m ms1 IH]; intros acc; cbn [app collect];
    [reflexivity|].
  destruct (match_entities m) as [l|e]; [apply IH | reflexivity].
Qed.

(** A long integer among the entities of a block: the block is JSON but for
    the size of that number. *)
Definition long_number : str := repeat 57 4301.

(** X4. A captured fragment whose block is not JSON is passed over: the
    loop goes on with the next fragment, and gathers what it would have
    gathered had that fragment not been there.  A fragment on whose block the
    decoder raises anything else (an integer too long for [int], brackets
    nested too deep) ends the loop: what was gathered before it stays, and
    no later fragment is read. *)
Theorem undecodable_fragment_skipped (ms1 ms2 : list str) (m : str)
    (acc : list value) :
  (Json.loads (block m) = Raise JSONDecodeError ->
     collect (ms1 ++ m :: ms2) acc = collect (ms1 ++ ms2) acc)
  /\ (forall e, Json.loads (block m) = Raise e -> e <> JSONDecodeError ->
        snd (collect ms1 acc) = None ->
        collect (ms1 ++ m :: ms2) acc = (fst (collect ms1 acc), Some e)).
Proof.
  split.
  - intros H. rewrite !collect_app. destruct (collect ms1 acc) as [ents [e|]];
      [reflexivity|].
    cbn [collect]. rewrite match_entities_spec, H, app_nil_r. reflexivity.
  - intros e H Hne Hn. rewrite collect_app.
    destruct (collect ms1 acc) as [ents err]. cbn [fst snd] in *. subst err.
    cbn [collect]. rewrite match_entities_spec, H.
    destruct e; try reflexivity. destruct (Hne eq_refl).
Qed.

(** The property at a fragment with a trailing comma, and at a fragment
    with a long integer, each between two fragments that decode. *)
Lemma undecodable_fragment_skipped_witness :
  collect ([j "{'name':'a','type':'b'}"] ++ j "{'name':'x'}," :: [j "{'name':'c','type':'d'}"]) []
  = collect ([j "{'name':'a','type':'b'}"] ++ [j "{'name':'c','type':'d'}"]) []
  /\ collect ([j "{'name':'a','type':'b'}"] ++ long_number :: [j "{'name':'c','type':'d'}"]) []
     = ([VDict (entity "a" "b")], Some ValueError).
Proof.
  split.
  - apply (proj1 (undecodable_fragment_skipped _ _ _ _)).
    vm_compute. reflexivity.
  - refine (proj2 (undecodable_fragment_skipped
                     [j "{'name':'a','type':'b'}"] [j "{'name':'c','type':'d'}"]
                     long_number []) ValueError _ _ _).
    + vm_compute. reflexivity.
    + discriminate.
    + vm_compute. reflexivity.
Defined.

(** ** Entities that are not records *)

Definition is_dict (v : value) : bool :=
  match v with
  | VDict _ => true
  | _ => false
  end.

Lemma entity_key_not_dict (pr : char -> bool) (v : value) :
  is_dict v = false -> entity_key pr v = Raise AttributeError.
Proof. destruct v; try reflexivity. discriminate. Qed.

Lemma all_dicts (l : list value) :
  forallb is_dict l = true -> exists es : list dict, l = VDict <$> es.
Proof.
  induction l as [|v l IH]; cbn [forallb]; [exists []; reflexivity|].
  intros [Hv Hl]%andb_true_iff. destruct (IH Hl) as [es ->].
  destruct v; try discriminate. exists (d :: es). reflexivity.
Qed.

Lemma some_not_dict (l : list value) :
  forallb is_dict l = false -> Exists (fun v => is_dict v = false) l.
Proof.
  induction l as [|v l IH]; cbn [forallb]; [discriminate|].
  destruct (is_dict v) eqn:E; cbn [andb]; [|intros _; left; exact E].
  intros H. right. exact (IH H).
Qed.

(** The loop that removes duplicates stops with [AttributeError] at the
    first entity that is not a record. *)
Lemma unique_not_dict (pr : char -> bool) (l : list value) (seen : gset str)
    (acc : list value) :
  Exists (fun v => is_dict v = false) l -> unique pr l seen acc = Raise AttributeError.
Proof.
  intros H. revert seen acc. induction H as [v l Hv|v l H IH]; intros seen acc;
    cbn [unique].
  - rewrite (entity_key_not_dict pr v Hv). reflexivity.
  - destruct (entity_key pr v) as [k|e] eqn:E.
    + cbn [bind]. destruct (decide (k ∈ seen)); apply IH.
    + destruct v; try (injection E as <-; reflexivity).
      rewrite entity_key_dict in E. discriminate.
Qed.

Lemma extract_not_dict (pr : char -> bool) (response_text : str) (ents : list value) :
  fst (collect (Re.findall (clean_text response_text)) []) = ents ->
  Exists (fun v => is_dict v = false) ents ->
  _extract_entities_from_response pr response_text = Ret (VList ents).
Proof.
  intros Hc Hex. unfold _extract_entities_from_response, extract_from_text.
  destruct (collect (Re.findall (clean_text response_text)) []) as [ents' err].
  cbn [fst] in Hc. subst ents'. unfold extract_body.
  destruct err as [e|]; [reflexivity|].
  assert (truthy (VList ents) = true) as -> by (destruct Hex; reflexivity).
  cbn [negb bind]. rewrite (unique_not_dict pr ents ∅ [] Hex). reflexivity.
Qed.

(** X5. When the first loop gathers anything that is not a record (a bare
    string, a number, a nested list), the loop that removes duplicates
    raises on it and the handler returns the gathered list as it stands:
    nothing is removed, repeated records included. *)
Theorem non_record_disables_deduplication (pr : char -> bool) (response_text : str)
    (ents : list value) :
  fst (collect (Re.findall (clean_text response_text)) []) = ents ->
  Exists (fun v => is_dict v = false) ents ->
  _extract_entities_from_response pr response_text = Ret (VList ents).
Proof. apply extract_not_dict. Qed.

(** The property at a block that repeats a record and ends with a bare
    string. *)
Lemma non_record_disables_deduplication_witness :
  _extract_entities_from_response isprintable_ascii
    (j "{'entities': [{'name':'a','type':'b'}, {'name':'a','type':'b'}, 'c']}")
  = Ret (VList [VDict (entity "a" "b"); VDict (entity "a" "b"); VStr (u "c")]).
Proof.
  apply non_record_disables_deduplication.
  - vm_compute. reflexivity.
  - right. right. left. reflexivity.
Defined.

Lemma keep_first_head_same (pr : char -> bool) (l : list dict) :
  head (keep_first pr l) = head l.
Proof. destruct l; reflexivity. Qed.

(** X6. Whenever the first loop gathers something, the parser returns a list
    taken from what was gathered: a sub-list of it, in the same order, that
    starts with the same entity.  It adds nothing and reorders nothing. *)
Theorem gathered_entities_kept_in_order (pr : char -> bool) (response_text : str)
    (ents : list value) :
  fst (collect (Re.findall (clean_text response_text)) []) = ents ->
  ents <> [] ->
  exists l,
    _extract_entities_from_response pr response_text = Ret (VList l)
    /\ l `sublist_of` ents
    /\ head l = head ents.
Proof.
  intros Hc Hne.
  destruct (collect (Re.findall (clean_text response_text)) []) as [ents' err] eqn:Ec.
  cbn [fst] in Hc. subst ents'. destruct err as [e|].
  - exists ents. split; [|split; reflexivity].
    unfold _extract_entities_from_response, extract_from_text. rewrite Ec. reflexivity.
  - destruct (forallb is_dict ents) eqn:E.
    + destruct (all_dicts ents E) as [es ->].
      exists (VDict <$> keep_first pr es). split; [|split].
      * unfold _extract_entities_from_response.
        apply extract_from_text_dicts; [exact Ec|].
        intros ->. apply Hne. reflexivity.
      * apply fmap_sublist, keep_first_sublist.
      * destruct es; reflexivity.
    + exists ents. split; [|split; reflexivity].
      apply extract_not_dict; [rewrite Ec; reflexivity|]. apply some_not_dict, E.
Qed.

(** The property at two blocks that share a record. *)
Lemma gathered_entities_kept_in_order_witness :
  exists l,
    _extract_entities_from_response isprintable_ascii
      (j "{'entities':[{'name':'a','type':'b'}]} {'entities':[{'name':'a','type':'b'},{'name':'c','type':'d'}]}")
    = Ret (VList l)
    /\ l `sublist_of` [VDict (entity "a" "b"); VDict (entity "a" "b"); VDict (entity "c" "d")]
    /\ head l = head [VDict (entity "a" "b"); VDict (entity "a" "b"); VDict (entity "c" "d")].
Proof.
  apply gathered_entities_kept_in_order.
  - vm_compute. reflexivity.
  - discriminate.
Defined.

(** X7. The loop that removes duplicates changes nothing on its own output:
    run on a list it returned, it returns that list. *)
Theorem unique_idempotent (pr : char -> bool) (ents us : list value) :
  unique pr ents ∅ [] = Ret us -> unique pr us ∅ [] = Ret us.
Proof.
  intros H. destruct (forallb is_dict ents) eqn:E.
  - destruct (all_dicts ents E) as [es ->].
    rewrite unique_from_empty in H. injection H as <-.
    rewrite unique_from_empty.
    rewrite (keep_first_distinct pr _ (keep_first_NoDup pr es)). reflexivity.
  - rewrite (unique_not_dict pr ents ∅ [] (some_not_dict ents E)) in H. discriminate.
Qed.

(** The property at a list that holds one record twice. *)
Lemma unique_idempotent_witness :
  unique isprintable_ascii [VDict (entity "a" "b")] ∅ [] = Ret [VDict (entity "a" "b")].
Proof.
  apply (unique_idempotent isprintable_ascii
           [VDict (entity "a" "b"); VDict (entity "a" "b")]).
  vm_compute. reflexivity.
Defined.

(** ** The dispatcher on any network *)

Lemma extract_entities_from_content_returns (pr : char -> bool) (content : value) :
  exists v, extract_entities_from_content pr content = Ret v.
Proof.
  destruct content; try (eexists; reflexivity).
  apply extract_from_text_returns.
Qed.

Lemma extract_entities_single_content pr exn_str net clock text api_url model content :
  fetch_content net api_url (payload model (format_ner_prompt text)) = Ret content ->
  exists ents,
    extract_entities_from_content pr content = Ret ents
    /\ extract_entities_single pr exn_str net clock text api_url model
       = Ret {| model_name := model;
                entities := ents;
                inference_time := Float64.fsub (snd clock) (fst clock);
                success := true;
                error_message := [];
                raw_response := content |}.
Proof.
  intros H. destruct (extract_entities_from_content_returns pr content) as [ents He].
  exists ents. split; [exact He|].
  unfold extract_entities_single. cbv zeta. rewrite H. cbn [bind]. rewrite He. reflexivity.
Qed.

(** What every record of [extract_entities_single] satisfies. *)
Definition well_formed_result (model : str) (clock : Float64.float * Float64.float)
    (r : ModelResult) : Prop :=
  model_name r = model
  /\ inference_time r = Float64.fsub (snd clock) (fst clock)
  /\ (success r = false -> entities r = VList [] /\ raw_response r = VStr [])
  /\ (success r = true -> error_message r = []).

Lemma extract_entities_single_well_formed pr exn_str net clock text api_url model :
  exists r,
    extract_entities_single pr exn_str net clock text api_url model = Ret r
    /\ well_formed_result model clock r.
Proof.
  destruct (fetch_content net api_url (payload model (format_ner_prompt text)))
    as [content|e] eqn:E.
  - destruct (extract_entities_single_content pr exn_str net clock text api_url model
                content E) as (ents & _ & ->).
    eexists. split; [reflexivity|]. repeat split; cbn; discriminate.
  - rewrite (extract_entities_single_fails pr exn_str net clock text api_url model e E).
    eexists. split; [reflexivity|]. repeat split; cbn; discriminate.
Qed.

(** X8. Whatever the network does, a call to one endpoint returns a record
    and raises nothing.  The record carries the model name it was given and
    the time between the two clock readings; a failed record has no
    entities and an empty raw response, a successful one an empty error
    message. *)
Theorem extract_entities_single_always_returns (pr : char -> bool)
    (exn_str : exn -> str) (net : network) (clock : Float64.float * Float64.float)
    (text api_url model : str) :
  exists r,
    extract_entities_single pr exn_str net clock text api_url model = Ret r
    /\ model_name r = model
    /\ inference_time r = Float64.fsub (snd clock) (fst clock)
    /\ (success r = false -> entities r = VList [] /\ raw_response r = VStr [])
    /\ (success r = true -> error_message r = []).
Proof. apply extract_entities_single_well_formed. Qed.

(** X9. Whatever the two endpoints do, both failing included,
    [extract_entities_both] raises nothing and returns the record of the
    call to the base endpoint under the name [qwen3-base], then the record
    of the call to the LoRA endpoint under the name [qwen3-ner-zero3]: each
    is what [extract_entities_single] returns for that endpoint, timed with
    its own clock, and without entities when it failed. *)
Theorem extract_entities_both_always_returns (pr : char -> bool)
    (exn_str : exn -> str) (self : NERComparisonClient) (net : network)
    (base_clock lora_clock : Float64.float * Float64.float) (text : str) :
  exists base_result lora_result,
    extract_entities_both pr exn_str self net base_clock lora_clock text
    = Ret (base_result, lora_result)
    /\ extract_entities_single pr exn_str net base_clock text (base_api_url self)
         (u "qwen3-base") = Ret base_result
    /\ extract_entities_single pr exn_str net lora_clock text (lora_api_url self)
         (u "qwen3-ner-zero3") = Ret lora_result
    /\ model_name base_result = u "qwen3-base"
    /\ model_name lora_result = u "qwen3-ner-zero3"
    /\ inference_time base_result = Float64.fsub (snd base_clock) (fst base_clock)
    /\ inference_time lora_result = Float64.fsub (snd lora_clock) (fst lora_clock)
    /\ (success base_result = false -> entities base_result = VList [])
    /\ (success lora_result = false -> entities lora_result = VList []).
Proof.
  destruct (extract_entities_both_pair pr exn_str self net base_clock lora_clock text)
    as (b & l & Eb & El & E).
  destruct (extract_entities_single_well_formed pr exn_str net base_clock text
              (base_api_url self) (u "qwen3-base")) as (b' & Eb' & Hb1 & Hb2 & Hb3 & _).
  destruct (extract_entities_single_well_formed pr exn_str net lora_clock text
              (lora_api_url self) (u "qwen3-ner-zero3")) as (l' & El' & Hl1 & Hl2 & Hl3 & _).
  rewrite Eb in Eb'. injection Eb' as <-. rewrite El in El'. injection El' as <-.
  exists b, l. repeat split; try assumption.
  - intros H. exact (proj1 (Hb3 H)).
  - intros H. exact (proj1 (Hl3 H)).
Qed.

(** ** Responses that are not chat completions *)

Lemma raise_for_status_passes (resp : response) :
  ~ (400 <= status_code resp < 600)%Z -> raise_for_status resp = Ret tt.
Proof.
  intros H. unfold raise_for_status.
  destruct (Z.leb_spec 400 (status_code resp)), (Z.ltb_spec (status_code resp) 600);
    try reflexivity.
  lia.
Qed.

(** X10. A response that passes the status check but is not a chat
    completion gives a failed record that names what was wrong: the
    exception of the body decoder when the body is not JSON, [TypeError]
    when the body is not an object, [KeyError] on [choices] when that field
    is missing, [IndexError] when the list of choices is empty. *)
Theorem malformed_response_fails (pr : char -> bool) (exn_str : exn -> str)
    (net : network) (clock : Float64.float * Float64.float) (text api_url model : str)
    (resp : response) :
  net api_url (payload model (format_ner_prompt text)) = Ret resp ->
  ~ (400 <= status_code resp < 600)%Z ->
  let call := extract_entities_single pr exn_str net clock text api_url model in
  (forall e, json_body resp = Raise e ->
     call = Ret (failed_result exn_str model clock e))
  /\ (forall v, json_body resp = Ret v -> is_dict v = false ->
        call = Ret (failed_result exn_str model clock TypeError))
  /\ (forall d, json_body resp = Ret (VDict d) ->
        PyDict.lookup d (u "choices") = None ->
        call = Ret (failed_result exn_str model clock (KeyError (VStr (u "choices")))))
  /\ (forall d, json_body resp = Ret (VDict d) ->
        PyDict.lookup d (u "choices") = Some (VList []) ->
        call = Ret (failed_result exn_str model clock IndexError)).
Proof.
  intros Hn Hs call.
  assert (Hf : forall e,
             (let* res := json_body resp in
              let* choices := py_getitem_str res (u "choices") in
              let* first := py_getitem_0 choices in
              let* message := py_getitem_str first (u "message") in
              py_getitem_str message (u "content")) = Raise e ->
             call = Ret (failed_result exn_str model clock e)).
  { intros e H. apply extract_entities_single_fails.
    unfold fetch_content. rewrite Hn. cbn [bind].
    rewrite (raise_for_status_passes resp Hs). cbn [bind]. exact H. }
  split; [|split; [|split]].
  - intros e E. apply Hf. rewrite E. reflexivity.
  - intros v E Hv. apply Hf. rewrite E. destruct v; try reflexivity. discriminate.
  - intros d E Hc. apply Hf. rewrite E. cbn [bind py_getitem_str]. rewrite Hc. reflexivity.
  - intros d E Hc. apply Hf. rewrite E. cbn [bind py_getitem_str]. rewrite Hc. reflexivity.
Qed.

(** A network whose endpoint answers 200 with an error object in place of
    a completion. *)
Definition error_body_network : network := fun _ _ =>
  Ret {| status_code := 200;
         http_error := [];
         json_body := Json.loads (j "{'error': {'message': 'model not loaded'}}") |}.

(** The property at that network. *)
Lemma malformed_response_fails_witness :
  extract_entities_single isprintable_ascii exn_text error_body_network
    (Float64.fzero, Float64.fone) (u "坦克开进兰州") (base_api_url default_client)
    (u "qwen3-base")
  = Ret (failed_result exn_text (u "qwen3-base") (Float64.fzero, Float64.fone)
           (KeyError (VStr (u "choices")))).
Proof.
  refine (proj1 (proj2 (proj2
            (malformed_response_fails isprintable_ascii exn_text error_body_network
               (Float64.fzero, Float64.fone) (u "坦克开进兰州")
               (base_api_url default_client) (u "qwen3-base") _ eq_refl _)))
            [(u "error", VDict [(u "message", VStr (u "model not loaded"))])] _ _).
  - cbn [status_code]. lia.
  - vm_compute. reflexivity.
  - vm_compute. reflexivity.
Defined.

(** X11. A response whose status is outside 400 to 599 and whose body is a
    chat completion gives a successful record, whatever that status is and
    whatever the content is: the raw response is the content as it came,
    and the entities are what the parser makes of it, which is the empty
    list when the content is not a string (a null content, say). *)
Theorem well_formed_response_succeeds (pr : char -> bool) (exn_str : exn -> str)
    (net : network) (clock : Float64.float * Float64.float) (text api_url model : str)
    (resp : response) (d first message : dict) (rest : list value) (content : value) :
  net api_url (payload model (format_ner_prompt text)) = Ret resp ->
  ~ (400 <= status_code resp < 600)%Z ->
  json_body resp = Ret (VDict d) ->
  PyDict.lookup d (u "choices") = Some (VList (VDict first :: rest)) ->
  PyDict.lookup first (u "message") = Some (VDict message) ->
  PyDict.lookup message (u "content") = Some content ->
  exists ents,
    extract_entities_single pr exn_str net clock text api_url model
    = Ret {| model_name := model;
             entities := ents;
             inference_time := Float64.fsub (snd clock) (fst clock);
             success := true;
             error_message := [];
             raw_response := content |}
    /\ match content with
       | VStr s => _extract_entities_from_response pr s = Ret ents
       | _ => ents = VList []
       end.
Proof.
  intros Hn Hs Hb Hc Hm Hk.
  assert (Hf : fetch_content net api_url (payload model (format_ner_prompt text))
               = Ret content).
  { unfold fetch_content. rewrite Hn. cbn [bind].
    rewrite (raise_for_status_passes resp Hs). cbn [bind]. rewrite Hb.
    cbn [bind py_getitem_str]. rewrite Hc. cbn [bind py_getitem_0 py_getitem_str].
    rewrite Hm. cbn [bind py_getitem_str]. rewrite Hk. reflexivity. }
  destruct (extract_entities_single_content pr exn_str net clock text api_url model
              content Hf) as (ents & He & Hr).
  exists ents. split; [exact Hr|].
  destruct content; cbn [extract_entities_from_content] in He;
    try (injection He as <-; reflexivity).
  exact He.
Qed.

(** A network whose endpoint answers 206 with a completion whose content
    is null. *)
Definition null_content_network : network := fun _ _ =>
  Ret {| status_code := 206;
         http_error := [];
         json_body :=
           Json.loads
             (j "{'id': 'c1', 'choices': [{'index': 0, 'message': {'role': 'assistant', 'content': null}}]}") |}.

(** The property at that network. *)
Lemma well_formed_response_succeeds_witness :
  exists ents,
    extract_entities_single isprintable_ascii exn_text null_content_network
      (Float64.fzero, Float64.fone) (u "坦克开进兰州") (base_api_url default_client)
      (u "qwen3-base")
    = Ret {| model_name := u "qwen3-base";
             entities := ents;
             inference_time := Float64.fsub Float64.fone Float64.fzero;
             success := true;
             error_message := [];
             raw_response := VNone |}
    /\ ents = VList [].
Proof.
  refine (well_formed_response_succeeds isprintable_ascii exn_text null_content_network
            (Float64.fzero, Float64.fone) (u "坦克开进兰州")
            (base_api_url default_client) (u "qwen3-base") _
            [(u "id", VStr (u "c1"));
             (u "choices",
              VList [VDict [(u "index", VInt 0);
                            (u "message",
                             VDict [(u "role", VStr (u "assistant"));
                                    (u "content", VNone)])]])]
            [(u "index", VInt 0);
             (u "message", VDict [(u "role", VStr (u "assistant")); (u "content", VNone)])]
            [(u "role", VStr (u "assistant")); (u "content", VNone)]
            [] VNone eq_refl _ _ _ _ _).
  - cbn [status_code]. lia.
  - vm_compute. reflexivity.
  - vm_compute. reflexivity.
  - vm_compute. reflexivity.
  - vm_compute. reflexivity.
Defined.

(** ** The prompt *)

Lemma app_between_neq (a b s1 s2 : str) : s1 <> s2 -> a ++ s1 ++ b <> a ++ s2 ++ b.
Proof.
  intros Hne E. apply Hne. apply app_inv_head in E. apply app_inv_tail in E. exact E.
Qed.

(** X12. The prompt holds the input text as it is, between a fixed head and
    a fixed tail, so two different texts never give the same prompt. *)
Theorem format_ner_prompt_injective (text1 text2 : str) :
  text1 <> text2 -> format_ner_prompt text1 <> format_ner_prompt text2.
Proof. intros Hne. exact (app_between_neq _ _ _ _ Hne). Qed.

(** The property at two texts that differ in their last character. *)
Lemma format_ner_prompt_injective_witness :
  format_ner_prompt (u "坦克开进兰州") <> format_ner_prompt (u "坦克开进兰州。").
Proof.
  apply format_ner_prompt_injective. vm_compute. discriminate.
Defined.

(** ** A reply that repeats the prompt *)

Lemma no_angle_no_think (s : str) : 60 ∉ s -> contains (u "<think>") s = false.
Proof.
  intros H. destruct (contains (u "<think>") s) eqn:E; [|reflexivity].
  destruct (contains_true _ _ E) as (pre & post & -> & _).
  destruct H. apply elem_of_app. right. left.
Qed.

Lemma clean_text_no_think (s : str) : contains (u "<think>") s = false -> clean_text s = s.
Proof. intros H. unfold clean_text. rewrite H. reflexivity. Qed.

(** The prompt, cut around the example block it shows. *)
Definition example_intro : str :=
  u "你是一个文本实体抽取领域的专家，你需要从给定的句子中提取出实体并且以 json 格式输出, 如 ".

Definition example_inner : str := j "{'name':'外层抗击区临界线','type':'军事装备'}".

Definition example_rules : str :=
  j "

注意:
1. 输出的每一行都必须是正确的 json 字符串
2. 找不到任何实体时, 输出'没有找到任何实体和关系'
3. 如果地理实体有坐标需要输出地理实体的坐标，例如兰州(36.06,103.79)，没有坐标则输出地理实体
4. 实体类型必须从以下四种实体类型进行选择：军事装备，地理位置，组织名称，人名

输入文本：
".

Definition prompt_tail : str := u "

请直接输出JSON结果：".

Lemma format_ner_prompt_pieces (text : str) :
  example_intro ++ spaced_block [] [] [32] [] example_inner
    ++ (example_rules ++ text ++ prompt_tail)
  = format_ner_prompt text.
Proof.
  unfold format_ner_prompt.
  match goal with
  | |- _ = ?a ++ text ++ ?b =>
      assert (Ea : a = example_intro ++ spaced_block [] [] [32] [] example_inner
                         ++ example_rules) by (vm_compute; reflexivity);
      assert (Eb : b = prompt_tail) by (vm_compute; reflexivity);
      rewrite Ea, Eb
  end.
  rewrite <- !app_assoc. reflexivity.
Qed.

(** X13. A reply that repeats the prompt and then answers without a block of
    its own (the sentinel phrase, say) is parsed to the example entity that
    the prompt shows: the parser cannot tell the example from an answer. *)
Theorem echoed_prompt_yields_example (pr : char -> bool) (text answer : str) :
  123 ∉ text -> 60 ∉ text -> 123 ∉ answer -> 60 ∉ answer ->
  _extract_entities_from_response pr (format_ner_prompt text ++ answer)
  = Ret (VList [VDict (entity "外层抗击区临界线" "军事装备")]).
Proof.
  intros Ht1 Ht2 Ha1 Ha2. rewrite <- format_ner_prompt_pieces.
  rewrite <- !app_assoc.
  set (post := example_rules ++ text ++ prompt_tail ++ answer).
  assert (Hb : 123 ∉ post).
  { unfold post. rewrite !not_elem_of_app. repeat split; try assumption;
      match goal with |- ?G => apply (@bool_decide_unpack G _) end;
      vm_compute; exact I. }
  assert (Hl : 60 ∉ example_intro ++ spaced_block [] [] [32] [] example_inner ++ post).
  { unfold post. rewrite !not_elem_of_app. repeat split; try assumption;
      match goal with |- ?G => apply (@bool_decide_unpack G _) end;
      vm_compute; exact I. }
  unfold _extract_entities_from_response.
  rewrite (clean_text_no_think _ (no_angle_no_think _ Hl)).
  change [VDict (entity "外层抗击区临界线" "军事装备")]
    with (VDict <$> keep_first pr [entity "外层抗击区临界线" "军事装备"]).
  apply extract_from_text_dicts; [|discriminate].
  rewrite findall_block_between.
  - vm_compute. reflexivity.
  - match goal with |- ?G => apply (@bool_decide_unpack G _) end. vm_compute. exact I.
  - exact Hb.
  - constructor.
  - constructor.
  - repeat constructor.
  - constructor.
  - match goal with |- ?G => apply (@bool_decide_unpack G _) end. vm_compute. exact I.
Qed.

(** The property at a reply that repeats the prompt and then reports that
    there is no entity. *)
Lemma echoed_prompt_yields_example_witness :
  _extract_entities_from_response isprintable_ascii
    (format_ner_prompt (u "今天天气很好") ++ u "
没有找到任何实体和关系")
  = Ret (VList [VDict (entity "外层抗击区临界线" "军事装备")]).
Proof.
  apply echoed_prompt_yields_example;
    match goal with |- ?G => apply (@bool_decide_unpack G _) end;
    vm_compute; exact I.
Defined.

(** ** The comparator on any lists *)










(** X16. Exchanging the two lists exchanges the two totals and the two
    one-sided counts, keeps [common] and negates [improvement]. *)
Theorem compare_entities_exchange (pr : char -> bool) (L1 L2 : list dict) :
  exists common base_only lora_only : Z,
    compare_entities pr (VDict <$> L1) (VDict <$> L2) =
      Ret (VDict [
        (u "base_total", VInt (len L1));
        (u "lora_total", VInt (len L2));
        (u "common", VInt common);
        (u "base_only", VInt base_only);
        (u "lora_only", VInt lora_only);
        (u "improvement", VInt (len L2 - len L1))])
    /\ compare_entities pr (VDict <$> L2) (VDict <$> L1) =
      Ret (VDict [
        (u "base_total", VInt (len L2));
        (u "lora_total", VInt (len L1));
        (u "common", VInt common);
        (u "base_only", VInt lora_only);
        (u "lora_only", VInt base_only);
        (u "improvement", VInt (- (len L2 - len L1)))]).
Proof.
  set (B := list_to_set (key_of pr <$> L1) : gset str).
  set (L := list_to_set (key_of pr <$> L2) : gset str).
  exists (set_len (B ∩ L)), (set_len (B ∖ L)), (set_len (L ∖ B)).
  rewrite !compare_entities_dicts. fold B L. split; [reflexivity|].
  rewrite (comm_L (∩) L B).
  replace (len L1 - len L2)%Z with (- (len L2 - len L1))%Z by lia. reflexivity.
Qed.

Lemma remove_dups_length_le (l : list str) : (length (remove_dups l) <= length l)%nat.
Proof.
  induction l as [|x l IH]; [reflexivity|]. cbn [remove_dups].
  destruct (decide_rel elem_of x l); cbn [length] in *; lia.
Qed.

Lemma remove_dups_NoDup (l : list str) : NoDup l -> remove_dups l = l.
Proof.
  induction 1 as [|x l Hx Hl IH]; cbn [remove_dups]; [reflexivity|].
  destruct (decide_rel elem_of x l) as [Hin|_]; [destruct (Hx Hin)|].
  rewrite IH. reflexivity.
Qed.

Lemma distinct_keys_le (pr : char -> bool) (l : list dict) :
  (distinct_keys pr l <= len l)%Z.
Proof.
  unfold distinct_keys, len. apply inj_le.
  rewrite <- (length_fmap (key_of pr) l). apply remove_dups_length_le.
Qed.

Lemma distinct_keys_NoDup (pr : char -> bool) (l : list dict) :
  NoDup (keys pr l) -> distinct_keys pr l = len l.
Proof.
  intros H. unfold distinct_keys, len. fold (keys pr l).
  rewrite (remove_dups_NoDup _ H). unfold keys. rewrite length_fmap. reflexivity.
Qed.

Lemma compare_entities_counts (pr : char -> bool) (L1 L2 : list dict) :
  exists common base_only lora_only : Z,
    compare_entities pr (VDict <$> L1) (VDict <$> L2) =
      Ret (VDict [
        (u "base_total", VInt (len L1));
        (u "lora_total", VInt (len L2));
        (u "common", VInt common);
        (u "base_only", VInt base_only);
        (u "lora_only", VInt lora_only);
        (u "improvement", VInt (len L2 - len L1))])
    /\ (0 <= common)%Z /\ (0 <= base_only)%Z /\ (0 <= lora_only)%Z
    /\ (common + base_only = distinct_keys pr L1)%Z
    /\ (common + lora_only = distinct_keys pr L2)%Z.
Proof.
  set (B := list_to_set (key_of pr <$> L1) : gset str).
  set (L := list_to_set (key_of pr <$> L2) : gset str).
  exists (set_len (B ∩ L)), (set_len (B ∖ L)), (set_len (L ∖ B)).
  split; [apply compare_entities_dicts|].
  unfold set_len. rewrite <- !size_key_set. fold B L.
  pose proof (size_split B L). pose proof (size_split L B) as H'.
  rewrite (comm_L (∩) L B) in H'. lia.
Qed.

(** X17. No count of [compare_entities] is negative, and the counts over keys
    never exceed the totals over entities: [common] plus [base_only] is at
    most [base_total], [common] plus [lora_only] at most [lora_total]; the
    totals count repeated records, the other counts do not. *)
Theorem compare_entities_counts_bounded (pr : char -> bool) (L1 L2 : list dict) :
  exists base_total lora_total common base_only lora_only improvement : Z,
    compare_entities pr (VDict <$> L1) (VDict <$> L2) =
      Ret (VDict [
        (u "base_total", VInt base_total);
        (u "lora_total", VInt lora_total);
        (u "common", VInt common);
        (u "base_only", VInt base_only);
        (u "lora_only", VInt lora_only);
        (u "improvement", VInt improvement)])
    /\ (0 <= common)%Z /\ (0 <= base_only)%Z /\ (0 <= lora_only)%Z
    /\ (common + base_only <= base_total)%Z
    /\ (common + lora_only <= lora_total)%Z.
Proof.
  destruct (compare_entities_counts pr L1 L2) as (c & bo & lo & E & H1 & H2 & H3 & H4 & H5).
  exists (len L1), (len L2), c, bo, lo, (len L2 - len L1)%Z.
  pose proof (distinct_keys_le pr L1). pose proof (distinct_keys_le pr L2).
  split; [exact E|]. lia.
Qed.

Lemma compare_entities_distinct (pr : char -> bool) (L1 L2 : list dict) :
  NoDup (keys pr L1) -> NoDup (keys pr L2) ->
  exists common base_only lora_only : Z,
    compare_entities pr (VDict <$> L1) (VDict <$> L2) =
      Ret (VDict [
        (u "base_total", VInt (common + base_only));
        (u "lora_total", VInt (common + lora_only));
        (u "common", VInt common);
        (u "base_only", VInt base_only);
        (u "lora_only", VInt lora_only);
        (u "improvement", VInt (lora_only - base_only))]).
Proof.
  intros N1 N2.
  destruct (compare_entities_counts pr L1 L2) as (c & bo & lo & E & _ & _ & _ & H4 & H5).
  rewrite (distinct_keys_NoDup pr L1 N1) in H4.
  rewrite (distinct_keys_NoDup pr L2 N2) in H5.
  exists c, bo, lo. rewrite E, <- H4, <- H5.
  replace (c + lo - (c + bo))%Z with (lo - bo)%Z by lia. reflexivity.
Qed.

(** X18. On two lists that repeat no key, the totals are the sums of the
    counts over keys, and [improvement] is [lora_only] minus [base_only]:
    the second list has gained exactly what it alone holds, less what it
    misses. *)
Theorem compare_entities_without_repeats (pr : char -> bool) (L1 L2 : list dict) :
  NoDup (keys pr L1) -> NoDup (keys pr L2) ->
  exists common base_only lora_only : Z,
    compare_entities pr (VDict <$> L1) (VDict <$> L2) =
      Ret (VDict [
        (u "base_total", VInt (common + base_only));
        (u "lora_total", VInt (common + lora_only));
        (u "common", VInt common);
        (u "base_only", VInt base_only);
        (u "lora_only", VInt lora_only);
        (u "improvement", VInt (lora_only - base_only))]).
Proof. apply compare_entities_distinct. Qed.

(** The property at a list of two entities against a list of three that
    shares one with it. *)
Lemma compare_entities_without_repeats_witness :
  exists common base_only lora_only : Z,
    compare_entities isprintable_ascii
      (VDict <$> [entity "a" "b"; entity "c" "d"])
      (VDict <$> [entity "c" "d"; entity "e" "f"; entity "g" "h"]) =
      Ret (VDict [
        (u "base_total", VInt (common + base_only));
        (u "lora_total", VInt (common + lora_only));
        (u "common", VInt common);
        (u "base_only", VInt base_only);
        (u "lora_only", VInt lora_only);
        (u "improvement", VInt (lora_only - base_only))]).
Proof.
  apply compare_entities_without_repeats;
    match goal with |- ?G => apply (@bool_decide_unpack G _) end;
    vm_compute; exact I.
Defined.



(** ** The scores on any ground truth *)

(** The result of [calculate_metrics] on a non-empty ground truth, with
    its counts as sizes of key sets and its scores as the code derives
    them. *)
Lemma calculate_metrics_sets (pr : char -> bool) (G P : list dict) :
  G <> [] ->
  let X : gset str := list_to_set (keys pr G) in
  let Y : gset str := list_to_set (keys pr P) in
  let tp := set_len (X ∩ Y) in
  let fp := set_len (Y ∖ X) in
  let fn := set_len (X ∖ Y) in
  exists precision recall f1,
    calculate_metrics pr (Some (VDict <$> G)) (VDict <$> P) =
      Ret (VDict [
        (u "precision", VFloat precision);
        (u "recall", VFloat recall);
        (u "f1", VFloat f1);
        (u "true_positives", VInt tp);
        (u "false_positives", VInt fp);
        (u "false_negatives", VInt fn)])
    /\ ratio_or_zero tp (tp + fp) = Ret precision
    /\ ratio_or_zero tp (tp + fn) = Ret recall
    /\ f1_score precision recall = Ret f1.
Proof.
  intros HG X Y tp fp fn. rewrite (calculate_metrics_dicts pr G P HG).
  fold X Y tp fp fn. cbv zeta.
  assert (Htp : (0 <= tp)%Z) by (unfold tp, set_len; lia).
  assert (Hfp : (0 <= fp)%Z) by (unfold fp, set_len; lia).
  assert (Hfn : (0 <= fn)%Z) by (unfold fn, set_len; lia).
  destruct (ratio_or_zero_le tp (tp + fp) ltac:(lia)) as (p & Ep & Hp & _).
  destruct (ratio_or_zero_le tp (tp + fn) ltac:(lia)) as (r & Er & Hr & _).
  destruct (f1_score_nonneg p r Hp Hr) as (f & Ef & _).
  exists p, r, f. rewrite Ep, Er. cbn [bind]. rewrite Ef. cbn [bind].
  repeat split; reflexivity.
Qed.

Lemma keys_set_nonempty (pr : char -> bool) (l : list dict) :
  l <> [] -> (0 < set_len (list_to_set (keys pr l)))%Z.
Proof.
  intros H. unfold set_len. destruct l as [|g l]; [contradiction|].
  set (X := list_to_set (keys pr (g :: l)) : gset str).
  assert (key_of pr g ∈ X) as Hin
    by (apply elem_of_list_to_set; unfold keys; rewrite fmap_cons; left).
  assert (size X <> 0%nat).
  { intros E. apply size_empty_inv in E.
    exact (not_elem_of_empty (C := gset str) _ (proj1 (E _) Hin)). }
  lia.
Qed.

Lemma keys_subset (pr : char -> bool) (A B : list dict) :
  (forall k, k ∈ keys pr A -> k ∈ keys pr B) ->
  (list_to_set (keys pr A) : gset str) ∩ list_to_set (keys pr B) = list_to_set (keys pr A)
  /\ (list_to_set (keys pr A) : gset str) ∖ list_to_set (keys pr B) = ∅.
Proof.
  intros H. split; apply set_eq; intros k.
  - rewrite elem_of_intersection, !elem_of_list_to_set. split; [intros [? _]; assumption|].
    intros Hk. split; [exact Hk | exact (H k Hk)].
  - rewrite elem_of_difference, !elem_of_list_to_set. split.
    + intros [Hk Hn]. destruct (Hn (H k Hk)).
    + intros Hk. destruct (not_elem_of_empty (C := gset str) _ Hk).
Qed.

(** X20. The three counts split the two key sets: true positives plus false
    negatives are the distinct keys of the ground truth, true positives
    plus false positives the distinct keys of the predictions, and none of
    the three is negative. *)
Theorem calculate_metrics_counts_split (pr : char -> bool) (G P : list dict) :
  G <> [] ->
  exists (precision recall f1 : Float64.float) (tp fp fn : Z),
    calculate_metrics pr (Some (VDict <$> G)) (VDict <$> P) =
      Ret (VDict [
        (u "precision", VFloat precision);
        (u "recall", VFloat recall);
        (u "f1", VFloat f1);
        (u "true_positives", VInt tp);
        (u "false_positives", VInt fp);
        (u "false_negatives", VInt fn)])
    /\ (0 <= tp)%Z /\ (0 <= fp)%Z /\ (0 <= fn)%Z
    /\ (tp + fn = distinct_keys pr G)%Z
    /\ (tp + fp = distinct_keys pr P)%Z.
Proof.
  intros HG. destruct (calculate_metrics_sets pr G P HG) as (p & r & f & E & _).
  set (X := list_to_set (keys pr G) : gset str) in *.
  set (Y := list_to_set (keys pr P) : gset str) in *.
  exists p, r, f, (set_len (X ∩ Y)), (set_len (Y ∖ X)), (set_len (X ∖ Y)).
  split; [exact E|].
  unfold set_len. rewrite <- !size_key_set. fold (keys pr G) (keys pr P). fold X Y.
  pose proof (size_split X Y). pose proof (size_split Y X) as H'.
  rewrite (comm_L (∩) Y X) in H'. lia.
Qed.

(** The property at a ground truth of two entities, one of them found. *)
Lemma calculate_metrics_counts_split_witness :
  exists (precision recall f1 : Float64.float) (tp fp fn : Z),
    calculate_metrics isprintable_ascii
      (Some (VDict <$> [entity "坦克" "军事装备"; entity "兰州" "地理位置"]))
      (VDict <$> [entity "坦克" "军事装备"; entity "导弹" "军事装备"]) =
      Ret (VDict [
        (u "precision", VFloat precision);
        (u "recall", VFloat recall);
        (u "f1", VFloat f1);
        (u "true_positives", VInt tp);
        (u "false_positives", VInt fp);
        (u "false_negatives", VInt fn)])
    /\ (0 <= tp)%Z /\ (0 <= fp)%Z /\ (0 <= fn)%Z
    /\ (tp + fn
        = distinct_keys isprintable_ascii [entity "坦克" "军事装备"; entity "兰州" "地理位置"])%Z
    /\ (tp + fp
        = distinct_keys isprintable_ascii [entity "坦克" "军事装备"; entity "导弹" "军事装备"])%Z.
Proof. apply calculate_metrics_counts_split. discriminate. Defined.

(** X21. When every key of the ground truth is a key of the predictions,
    recall is exactly [1.0] and there is no false negative, however many
    other predictions there are, in whatever order, repeated or not. *)
Theorem calculate_metrics_full_recall (pr : char -> bool) (G P : list dict) :
  G <> [] ->
  (forall k, k ∈ keys pr G -> k ∈ keys pr P) ->
  exists (precision f1 : Float64.float) (fp : Z),
    calculate_metrics pr (Some (VDict <$> G)) (VDict <$> P) =
      Ret (VDict [
        (u "precision", VFloat precision);
        (u "recall", VFloat Float64.fone);
        (u "f1", VFloat f1);
        (u "true_positives", VInt (distinct_keys pr G));
        (u "false_positives", VInt fp);
        (u "false_negatives", VInt 0)]).
Proof.
  intros HG Hsub. destruct (calculate_metrics_sets pr G P HG) as (p & r & f & E & _ & Er & _).
  destruct (keys_subset pr G P Hsub) as [Hi Hd].
  rewrite Hi, Hd in E, Er.
  replace (set_len ∅) with 0%Z in E, Er by reflexivity.
  rewrite Z.add_0_r in Er. unfold ratio_or_zero in Er.
  pose proof (keys_set_nonempty pr G HG) as Hn.
  destruct (Z.ltb_spec 0 (set_len (list_to_set (keys pr G)))) as [_|]; [|lia].
  rewrite (int_truediv_same _ Hn) in Er. injection Er as <-.
  exists p, f, (set_len (list_to_set (keys pr P) ∖ list_to_set (keys pr G))).
  rewrite E. unfold set_len at 1. unfold keys at 1. rewrite size_key_set. reflexivity.
Qed.

(** The property at predictions that hold the ground truth and more. *)
Lemma calculate_metrics_full_recall_witness :
  exists (precision f1 : Float64.float) (fp : Z),
    calculate_metrics isprintable_ascii
      (Some (VDict <$> [entity "坦克" "军事装备"]))
      (VDict <$> [entity "导弹" "军事装备"; entity "坦克" "军事装备"; entity "坦克" "军事装备"]) =
      Ret (VDict [
        (u "precision", VFloat precision);
        (u "recall", VFloat Float64.fone);
        (u "f1", VFloat f1);
        (u "true_positives", VInt (distinct_keys isprintable_ascii [entity "坦克" "军事装备"]));
        (u "false_positives", VInt fp);
        (u "false_negatives", VInt 0)]).
Proof.
  apply calculate_metrics_full_recall; [discriminate|].
  intros k ->%list_elem_of_singleton. right. left.
Defined.

(** X22. When every key of the predictions is a key of the ground truth and
    there is a prediction, precision is exactly [1.0] and there is no false
    positive. *)
Theorem calculate_metrics_full_precision (pr : char -> bool) (G P : list dict) :
  G <> [] -> P <> [] ->
  (forall k, k ∈ keys pr P -> k ∈ keys pr G) ->
  exists (recall f1 : Float64.float) (fn : Z),
    calculate_metrics pr (Some (VDict <$> G)) (VDict <$> P) =
      Ret (VDict [
        (u "precision", VFloat Float64.fone);
        (u "recall", VFloat recall);
        (u "f1", VFloat f1);
        (u "true_positives", VInt (distinct_keys pr P));
        (u "false_positives", VInt 0);
        (u "false_negatives", VInt fn)]).
Proof.
  intros HG HP Hsub.
  destruct (calculate_metrics_sets pr G P HG) as (p & r & f & E & Ep & _ & _).
  destruct (keys_subset pr P G Hsub) as [Hi Hd].
  rewrite (comm_L (∩)) in Hi. rewrite Hi, Hd in E, Ep.
  replace (set_len ∅) with 0%Z in E, Ep by reflexivity.
  rewrite Z.add_0_r in Ep. unfold ratio_or_zero in Ep.
  pose proof (keys_set_nonempty pr P HP) as Hn.
  destruct (Z.ltb_spec 0 (set_len (list_to_set (keys pr P)))) as [_|]; [|lia].
  rewrite (int_truediv_same _ Hn) in Ep. injection Ep as <-.
  exists r, f, (set_len (list_to_set (keys pr G) ∖ list_to_set (keys pr P))).
  rewrite E. unfold set_len at 1. unfold keys at 1. rewrite size_key_set. reflexivity.
Qed.

(** The property at one correct prediction out of a ground truth of two. *)
Lemma calculate_metrics_full_precision_witness :
  exists (recall f1 : Float64.float) (fn : Z),
    calculate_metrics isprintable_ascii
      (Some (VDict <$> [entity "坦克" "军事装备"; entity "兰州" "地理位置"]))
      (VDict <$> [entity "兰州" "地理位置"]) =
      Ret (VDict [
        (u "precision", VFloat Float64.fone);
        (u "recall", VFloat recall);
        (u "f1", VFloat f1);
        (u "true_positives", VInt (distinct_keys isprintable_ascii [entity "兰州" "地理位置"]));
        (u "false_positives", VInt 0);
        (u "false_negatives", VInt fn)]).
Proof.
  apply calculate_metrics_full_precision; [discriminate | discriminate |].
  intros k ->%list_elem_of_singleton. right. left.
Defined.

Lemma ratio_or_zero_0 (d : Z) : (0 <= d)%Z -> ratio_or_zero 0 d = Ret Float64.fzero.
Proof.
  intros H. unfold ratio_or_zero, int_truediv.
  destruct (Z.ltb_spec 0 d) as [Hd|_]; [|reflexivity].
  destruct (Z.eqb_spec d 0) as [->|_]; [lia|].
  destruct d as [|p|p]; try lia. reflexivity.
Qed.

(** X23. When no key of the ground truth is a key of the predictions, the
    three scores are [0.0], as they are when there is no ground truth at
    all; the counts tell the two cases apart. *)
Theorem calculate_metrics_nothing_found (pr : char -> bool) (G P : list dict) :
  G <> [] ->
  (forall k, k ∈ keys pr G -> k ∉ keys pr P) ->
  calculate_metrics pr (Some (VDict <$> G)) (VDict <$> P) =
    Ret (VDict [
      (u "precision", VFloat Float64.fzero);
      (u "recall", VFloat Float64.fzero);
      (u "f1", VFloat Float64.fzero);
      (u "true_positives", VInt 0);
      (u "false_positives", VInt (distinct_keys pr P));
      (u "false_negatives", VInt (distinct_keys pr G))]).
Proof.
  intros HG Hdis. rewrite (calculate_metrics_dicts pr G P HG).
  set (X := list_to_set (keys pr G) : gset str).
  set (Y := list_to_set (keys pr P) : gset str).
  assert (Hi : X ∩ Y = ∅).
  { apply set_eq. intros k. rewrite elem_of_intersection. unfold X, Y.
    rewrite !elem_of_list_to_set. split.
    - intros [Hg Hp]. destruct (Hdis k Hg Hp).
    - intros Hk. destruct (not_elem_of_empty (C := gset str) _ Hk). }
  assert (Hx : X ∖ Y = X).
  { apply set_eq. intros k. rewrite elem_of_difference. unfold X, Y.
    rewrite !elem_of_list_to_set. split; [intros [? _]; assumption|].
    intros Hg. split; [exact Hg | exact (Hdis k Hg)]. }
  assert (Hy : Y ∖ X = Y).
  { apply set_eq. intros k. rewrite elem_of_difference. unfold X, Y.
    rewrite !elem_of_list_to_set. split; [intros [? _]; assumption|].
    intros Hp. split; [exact Hp|]. intros Hg. exact (Hdis k Hg Hp). }
  rewrite Hi, Hx, Hy. replace (set_len ∅) with 0%Z by reflexivity. cbv zeta.
  rewrite !Z.add_0_l.
  rewrite !ratio_or_zero_0 by (unfold set_len; lia). cbn [bind].
  change (f1_score Float64.fzero Float64.fzero) with (Ret (A := Float64.float) Float64.fzero).
  cbn [bind]. unfold set_len, X, Y, keys. rewrite !size_key_set. reflexivity.
Qed.

(** The property at a prediction that misses the one entity there is. *)
Lemma calculate_metrics_nothing_found_witness :
  calculate_metrics isprintable_ascii
    (Some (VDict <$> [entity "坦克" "军事装备"]))
    (VDict <$> [entity "坦克" "地理位置"]) =
    Ret (VDict [
      (u "precision", VFloat Float64.fzero);
      (u "recall", VFloat Float64.fzero);
      (u "f1", VFloat Float64.fzero);
      (u "true_positives", VInt 0);
      (u "false_positives", VInt (distinct_keys isprintable_ascii [entity "坦克" "地理位置"]));
      (u "false_negatives", VInt (distinct_keys isprintable_ascii [entity "坦克" "军事装备"]))]).
Proof.
  apply calculate_metrics_nothing_found; [discriminate|].
  intros k ->%list_elem_of_singleton.
  match goal with |- ?G => apply (@bool_decide_unpack G _) end.
  vm_compute. exact I.
Defined.

(** X24. The scores depend on the two lists through their sets of keys only:
    lists with the same keys, in another order or with records repeated,
    give the same result. *)
Theorem calculate_metrics_keys_only (pr : char -> bool) (G G' P P' : list dict) :
  G <> [] -> G' <> [] ->
  (forall k, k ∈ keys pr G <-> k ∈ keys pr G') ->
  (forall k, k ∈ keys pr P <-> k ∈ keys pr P') ->
  calculate_metrics pr (Some (VDict <$> G)) (VDict <$> P)
  = calculate_metrics pr (Some (VDict <$> G')) (VDict <$> P').
Proof.
  intros HG HG' Hg Hp.
  rewrite (calculate_metrics_dicts pr G P HG), (calculate_metrics_dicts pr G' P' HG').
  assert (EX : (list_to_set (keys pr G) : gset str) = list_to_set (keys pr G'))
    by (apply set_eq; intros k; rewrite !elem_of_list_to_set; apply Hg).
  assert (EY : (list_to_set (keys pr P) : gset str) = list_to_set (keys pr P'))
    by (apply set_eq; intros k; rewrite !elem_of_list_to_set; apply Hp).
  rewrite EX, EY. reflexivity.
Qed.

(** The property at a ground truth given twice over and predictions in
    reverse order. *)
Lemma calculate_metrics_keys_only_witness :
  calculate_metrics isprintable_ascii
    (Some (VDict <$> [entity "a" "b"]))
    (VDict <$> [entity "a" "b"; entity "c" "d"])
  = calculate_metrics isprintable_ascii
      (Some (VDict <$> [entity "a" "b"; entity "a" "b"]))
      (VDict <$> [entity "c" "d"; entity "a" "b"]).
Proof.
  apply calculate_metrics_keys_only; [discriminate | discriminate | |].
  - intros k. unfold keys. rewrite !fmap_cons, !elem_of_cons. tauto.
  - intros k. unfold keys. rewrite !fmap_cons, !elem_of_cons. tauto.
Defined.

(** X25. Precision and recall exchange when ground truth and predictions do:
    the precision of [P] against [G] is the recall of [G] against [P], and
    false positives become false negatives. *)
Theorem calculate_metrics_exchange (pr : char -> bool) (G P : list dict) :
  G <> [] -> P <> [] ->
  exists (precision recall f1 f1' : Float64.float) (tp fp fn : Z),
    calculate_metrics pr (Some (VDict <$> G)) (VDict <$> P) =
      Ret (VDict [
        (u "precision", VFloat precision);
        (u "recall", VFloat recall);
        (u "f1", VFloat f1);
        (u "true_positives", VInt tp);
        (u "false_positives", VInt fp);
        (u "false_negatives", VInt fn)])
    /\ calculate_metrics pr (Some (VDict <$> P)) (VDict <$> G) =
      Ret (VDict [
        (u "precision", VFloat recall);
        (u "recall", VFloat precision);
        (u "f1", VFloat f1');
        (u "true_positives", VInt tp);
        (u "false_positives", VInt fn);
        (u "false_negatives", VInt fp)]).
Proof.
  intros HG HP.
  destruct (calculate_metrics_sets pr G P HG) as (p & r & f & E & Ep & Er & _).
  destruct (calculate_metrics_sets pr P G HP) as (p' & r' & f' & E' & Ep' & Er' & _).
  rewrite (comm_L (∩) (list_to_set (keys pr P))) in E', Ep', Er'.
  rewrite Er in Ep'. injection Ep' as <-.
  rewrite Ep in Er'. injection Er' as <-.
  exists p, r, f, f'. eexists _, _, _. split; [exact E | exact E'].
Qed.

(** The property at the tank and missile scenario and its mirror. *)
Lemma calculate_metrics_exchange_witness :
  exists (precision recall f1 f1' : Float64.float) (tp fp fn : Z),
    calculate_metrics isprintable_ascii
      (Some (VDict <$> [entity "坦克" "军事装备"]))
      (VDict <$> [entity "坦克" "军事装备"; entity "导弹" "军事装备"]) =
      Ret (VDict [
        (u "precision", VFloat precision);
        (u "recall", VFloat recall);
        (u "f1", VFloat f1);
        (u "true_positives", VInt tp);
        (u "false_positives", VInt fp);
        (u "false_negatives", VInt fn)])
    /\ calculate_metrics isprintable_ascii
         (Some (VDict <$> [entity "坦克" "军事装备"; entity "导弹" "军事装备"]))
         (VDict <$> [entity "坦克" "军事装备"]) =
      Ret (VDict [
        (u "precision", VFloat recall);
        (u "recall", VFloat precision);
        (u "f1", VFloat f1');
        (u "true_positives", VInt tp);
        (u "false_positives", VInt fn);
        (u "false_negatives", VInt fp)]).
Proof. apply calculate_metrics_exchange; discriminate. Defined.



(** ** The counts of the radar chart *)

(** The value under [type], the empty string when the field is missing. *)
Definition type_of (d : dict) : value :=
  match PyDict.lookup d (u "type") with
  | Some v => v
  | None => VStr []
  end.

(** A value that can be looked up in a dict: anything but a list or a
    dict. *)
Definition hashable (v : value) : bool :=
  match v with
  | VList _ | VDict _ => false
  | _ => true
  end.

(** The record has type [t], as a string. *)
Definition has_type (t : str) (d : dict) : bool :=
  match type_of d with
  | VStr s => bool_decide (s = t)
  | _ => false
  end.

(** The number of records of type [t]. *)
Definition count_of (t : str) (es : list dict) : Z :=
  Z.of_nat (length (List.filter (has_type t) es)).

Lemma count_of_cons (t : str) (d : dict) (es : list dict) :
  count_of t (d :: es) = ((if has_type t d then 1 else 0) + count_of t es)%Z.
Proof.
  unfold count_of. cbn [List.filter]. destruct (has_type t d); cbn [length]; lia.
Qed.

Lemma count_loop_counts (es : list dict) (counts : gmap str Z) :
  Forall (fun d => hashable (type_of d) = true) es ->
  exists counts',
    count_loop (VDict <$> es) counts = Ret counts'
    /\ forall t, counts' !! t = (fun n => (n + count_of t es)%Z) <$> counts !! t.
Proof.
  intros H. revert counts. induction H as [|d es Hd _ IH]; intros counts.
  - exists counts. split; [reflexivity|]. intros t.
    destruct (counts !! t) as [n|]; cbn; [|reflexivity].
    f_equal. unfold count_of. cbn. lia.
  - rewrite fmap_cons. cbn [count_loop]. unfold count_entity, py_get.
    fold (type_of d). cbn [bind].
    assert (Hstep : forall c1 : gmap str Z,
               (forall t, c1 !! t
                          = (fun n => (n + (if has_type t d then 1 else 0))%Z)
                              <$> counts !! t) ->
               exists counts',
                 count_loop (VDict <$> es) c1 = Ret counts'
                 /\ forall t, counts' !! t
                              = (fun n => (n + count_of t (d :: es))%Z) <$> counts !! t).
    { intros c1 H1. destruct (IH c1) as (c' & E & H').
      exists c'. split; [exact E|]. intros t. rewrite H', H1, count_of_cons.
      destruct (counts !! t) as [n|]; cbn; [|reflexivity]. f_equal. lia. }
    assert (Hsame : forall t, has_type t d = false ->
               counts !! t = (fun n => (n + (if has_type t d then 1 else 0))%Z)
                               <$> counts !! t).
    { intros t ->. destruct (counts !! t) as [n|]; cbn; [|reflexivity].
      f_equal. lia. }
    unfold has_type in Hstep, Hsame.
    destruct (type_of d) as [|b|z|f|s|l|d'] eqn:Et; try discriminate Hd;
      try (apply Hstep; intros t; apply Hsame; reflexivity).
    destruct (counts !! s) as [n|] eqn:Es.
    + apply Hstep. intros t. destruct (decide (s = t)) as [<-|Hne].
      * rewrite lookup_insert_eq, Es, bool_decide_true by reflexivity. reflexivity.
      * rewrite lookup_insert_ne by exact Hne. apply Hsame.
        apply bool_decide_false. exact Hne.
    + apply Hstep. intros t. destruct (decide (s = t)) as [<-|Hne].
      * rewrite Es. reflexivity.
      * apply Hsame. apply bool_decide_false. exact Hne.
Qed.

Lemma zero_counts_lookup (t : str) :
  t ∈ entity_types -> zero_counts !! t = Some 0%Z.
Proof.
  intros H. unfold zero_counts. apply elem_of_list_to_map.
  - rewrite <- list_fmap_compose.
    match goal with |- ?G => apply (@bool_decide_unpack G _) end.
    vm_compute. exact I.
  - apply list_elem_of_fmap. exists t. split; [reflexivity | exact H].
Qed.

Lemma count_by_type_dicts (es : list dict) :
  Forall (fun d => hashable (type_of d) = true) es ->
  count_by_type (VDict <$> es) = Ret ((fun t => count_of t es) <$> entity_types).
Proof.
  intros H. unfold count_by_type.
  destruct (count_loop_counts es zero_counts H) as (c & -> & Hc). cbn [bind].
  unfold entity_types. cbn [mapM fmap list_fmap].
  rewrite !Hc, !zero_counts_lookup
    by (unfold entity_types; rewrite !elem_of_cons; tauto).
  reflexivity.
Qed.

(** X27. On records whose type can be hashed, [count_by_type] returns, for
    each of the four entity types in their fixed order, the number of
    records whose type is that string; records of any other type, or
    without one, are counted nowhere. *)
Theorem count_by_type_counts (es : list dict) :
  Forall (fun d => hashable (type_of d) = true) es ->
  count_by_type (VDict <$> es) = Ret ((fun t => count_of t es) <$> entity_types).
Proof. apply count_by_type_dicts. Qed.

(** The property at four records, one of them of a type outside the
    four. *)
Lemma count_by_type_counts_witness :
  count_by_type (VDict <$> [entity "坦克" "军事装备"; entity "兰州" "地理位置";
                            entity "演习" "事件"; entity "导弹" "军事装备"])
  = Ret ((fun t => count_of t [entity "坦克" "军事装备"; entity "兰州" "地理位置";
                               entity "演习" "事件"; entity "导弹" "军事装备"])
           <$> entity_types).
Proof.
  apply count_by_type_counts. repeat constructor.
Defined.

Lemma has_type_once (d : dict) :
  ((if has_type (u "军事装备") d then 1 else 0)
   + (if has_type (u "地理位置") d then 1 else 0)
   + (if has_type (u "组织名称") d then 1 else 0)
   + (if has_type (u "人名") d then 1 else 0) <= 1)%Z.
Proof.
  unfold has_type. destruct (type_of d) as [| | | |s| |]; try lia.
  destruct (bool_decide_reflect (s = u "军事装备")) as [->|_];
    [vm_compute; discriminate|].
  destruct (bool_decide_reflect (s = u "地理位置")) as [->|_];
    [vm_compute; discriminate|].
  destruct (bool_decide_reflect (s = u "组织名称")) as [->|_];
    [vm_compute; discriminate|].
  destruct (bool_decide (s = u "人名")); lia.
Qed.

Lemma count_of_sum (es : list dict) :
  (count_of (u "军事装备") es + count_of (u "地理位置") es
   + count_of (u "组织名称") es + count_of (u "人名") es <= len es)%Z.
Proof.
  induction es as [|d es IH]; [vm_compute; discriminate|].
  rewrite !count_of_cons. pose proof (has_type_once d).
  unfold len in *. cbn [length]. lia.
Qed.

(** X28. The four counts are not negative and add up to at most the number
    of records: no record is counted twice. *)
Theorem count_by_type_total (es : list dict) :
  Forall (fun d => hashable (type_of d) = true) es ->
  exists n1 n2 n3 n4 : Z,
    count_by_type (VDict <$> es) = Ret [n1; n2; n3; n4]
    /\ (0 <= n1)%Z /\ (0 <= n2)%Z /\ (0 <= n3)%Z /\ (0 <= n4)%Z
    /\ (n1 + n2 + n3 + n4 <= len es)%Z.
Proof.
  intros H. rewrite (count_by_type_dicts es H).
  exists (count_of (u "军事装备") es), (count_of (u "地理位置") es),
    (count_of (u "组织名称") es), (count_of (u "人名") es).
  split; [reflexivity|]. pose proof (count_of_sum es). unfold count_of in *. lia.
Qed.

(** The property at the same four records. *)
Lemma count_by_type_total_witness :
  exists n1 n2 n3 n4 : Z,
    count_by_type (VDict <$> [entity "坦克" "军事装备"; entity "兰州" "地理位置";
                              entity "演习" "事件"; entity "导弹" "军事装备"])
    = Ret [n1; n2; n3; n4]
    /\ (0 <= n1)%Z /\ (0 <= n2)%Z /\ (0 <= n3)%Z /\ (0 <= n4)%Z
    /\ (n1 + n2 + n3 + n4
        <= len [entity "坦克" "军事装备"; entity "兰州" "地理位置";
                entity "演习" "事件"; entity "导弹" "军事装备"])%Z.
Proof.
  apply count_by_type_total. repeat constructor.
Defined.

Lemma count_loop_hashable (es : list dict) (counts : gmap str Z) :
  Forall (fun d => hashable (type_of d) = true) es ->
  exists counts', count_loop (VDict <$> es) counts = Ret counts'.
Proof.
  intros H. destruct (count_loop_counts es counts H) as (c & E & _). eauto.
Qed.

Lemma count_loop_app (l1 l2 : list value) (counts : gmap str Z) :
  count_loop (l1 ++ l2) counts =
    let* counts' := count_loop l1 counts in count_loop l2 counts'.
Proof.
  revert counts. induction l1 as [|v l1 IH]; intros counts; [reflexivity|].
  cbn [app count_loop]. destruct (count_entity counts v); [apply IH | reflexivity].
Qed.

(** X29. The first entity that is not a record, or whose type is a list or a
    dict, ends [count_by_type] with an exception: [AttributeError] for the
    former, [TypeError] for the latter, which cannot be hashed. *)
Theorem count_by_type_raises (before : list dict) (v : value) (after : list value) :
  Forall (fun d => hashable (type_of d) = true) before ->
  (is_dict v = false ->
     count_by_type ((VDict <$> before) ++ v :: after) = Raise AttributeError)
  /\ (forall d, v = VDict d -> hashable (type_of d) = false ->
        count_by_type ((VDict <$> before) ++ v :: after) = Raise TypeError).
Proof.
  intros H. unfold count_by_type. rewrite count_loop_app.
  destruct (count_loop_hashable before zero_counts H) as [c ->]. cbn [bind count_loop].
  split.
  - intros Hv. destruct v; try reflexivity. discriminate.
  - intros d -> Hd. unfold count_entity, py_get. fold (type_of d). cbn [bind].
    destruct (type_of d); try discriminate; reflexivity.
Qed.

(** The property at a place whose type came as a list. *)
Lemma count_by_type_raises_witness :
  count_by_type ((VDict <$> [entity "坦克" "军事装备"])
                 ++ VDict [(u "name", VStr (u "兰州")); (u "type", VList [VStr (u "地理位置")])]
                 :: [])
  = Raise TypeError.
Proof.
  refine (proj2 (count_by_type_raises [entity "坦克" "军事装备"] _ [] _) _ eq_refl _).
  - repeat constructor.
  - reflexivity.
Defined.
